(** * Vitality Elite: the generative content orchestration layer

    A shallow embedding of [services/geminiService.ts] together with the two
    session caches of [components/MealPlanner.tsx] and
    [components/WorkoutPlanner.tsx].

    Conventions of the embedding:
    - a JavaScript value produced by [JSON.parse] is a [value];
    - an [async] function that can raise is a function into [outcome];
    - the remote backend is a function from the request to its outcome;
    - [undefined] in an optional field is [None];
    - a string is the byte sequence of its UTF-8 encoding;
    - the fixed English wording of the prompts is not kept: a request is
      represented by the values the source interpolates into it. *)

From Stdlib Require Import String Ascii List ZArith Lia Bool Sorted.
From Stdlib Require Import DecimalString.
From stdpp Require Import gmap strings.
Import ListNotations.

Local Open Scope string_scope.
Local Open Scope list_scope.

Set Warnings "-register-all".

(** ** JavaScript values *)

Module JS.

(** The values [JSON.parse] can build, plus [undefined].  A number keeps the
    literal it was written with; its IEEE-754 value is never needed here. *)
Inductive value : Type :=
| VUndefined
| VNull
| VBool (b : bool)
| VNum (literal : string)
| VStr (s : string)
| VArr (items : list value)
| VObj (props : list (string * value)).

Inductive error : Type :=
| SyntaxError
| TypeError
| BackendError (message : string).

Inductive outcome (A : Type) : Type :=
| Return (a : A)
| Throw (e : error).
Arguments Return {A} a.
Arguments Throw {A} e.

Definition bind {A B : Type} (m : outcome A) (k : A -> outcome B) : outcome B :=
  match m with
  | Return a => k a
  | Throw e => Throw e
  end.

(** Truthiness of a string-or-undefined, as tested by [||], [&&], [!] and [if]. *)
Definition truthy_str (s : option string) : bool :=
  match s with
  | Some s => negb (String.eqb s EmptyString)
  | None => false
  end.

(** [a || b] on strings-or-undefined. *)
Definition or_str (a b : option string) : option string :=
  if truthy_str a then a else b.

(** [a || 'literal'] with a string literal on the right. *)
Definition or_default (a : option string) (d : string) : string :=
  match a with
  | Some s => if String.eqb s EmptyString then d else s
  | None => d
  end.

(** Interpolation [${x}] of a string-or-undefined in a template literal. *)
Definition template (s : option string) : string :=
  match s with
  | Some s => s
  | None => "undefined"
  end.

(** *** Plain objects used as maps

    [SESSION_IMAGE_CACHE], [VIDEO_CACHE] and the check-mark records are
    object literals: such an object holds its own properties (the [gmap]) and
    answers as well for the names it inherits from [Object.prototype]. *)

Definition OBJECT_PROTOTYPE : list string :=
  ["constructor"; "__defineGetter__"; "__defineSetter__"; "hasOwnProperty";
   "__lookupGetter__"; "__lookupSetter__"; "isPrototypeOf"; "propertyIsEnumerable";
   "toString"; "valueOf"; "__proto__"; "toLocaleString"].

Definition inherited (key : string) : bool :=
  existsb (String.eqb key) OBJECT_PROTOTYPE.

(** What [o[key]] reads: an own property, else what the prototype gives for
    the name (a function, or the prototype itself for [__proto__]), else
    [undefined]. *)
Inductive reading (A : Type) : Type :=
| Own (a : A)
| Inherited
| Absent.
Arguments Own {A} a.
Arguments Inherited {A}.
Arguments Absent {A}.

Definition read {A : Type} (own : gmap string A) (key : string) : reading A :=
  match own !! key with
  | Some a => Own a
  | None => if inherited key then Inherited else Absent
  end.

(** [o[key] = v] for a string or boolean [v].  Without an own property of
    that name, the write to [__proto__] reaches the inherited setter, which
    ignores a value that is not an object. *)
Definition assign {A : Type} (key : string) (v : A) (own : gmap string A)
  : gmap string A :=
  match own !! key with
  | Some _ => <[key := v]> own
  | None => if String.eqb key "__proto__" then own else <[key := v]> own
  end.

(** Truthiness of a reading of a string-valued object: what the prototype
    gives is an object, hence truthy. *)
Definition truthy_reading (r : reading string) : bool :=
  match r with
  | Own s => negb (String.eqb s EmptyString)
  | Inherited => true
  | Absent => false
  end.

(** What a variable declared [string | null] holds at run time here: a
    string, [null], or the inherited object that a cache read let through. *)
Inductive shown : Type :=
| Str (s : string)
| Builtin
| Null.

Definition truthy_shown (v : shown) : bool :=
  match v with
  | Str s => negb (String.eqb s EmptyString)
  | Builtin => true
  | Null => false
  end.

(** [Object.is], by which React compares states and dependencies. *)
Definition same_shown (a b : shown) : bool :=
  match a, b with
  | Str s, Str t => String.eqb s t
  | Builtin, Builtin => true
  | Null, Null => true
  | _, _ => false
  end.

Definition same_str (a b : option string) : bool :=
  match a, b with
  | Some s, Some t => String.eqb s t
  | None, None => true
  | _, _ => false
  end.

(** *** Objects as ordered property lists *)

Fixpoint get_own (k : string) (props : list (string * value)) : option value :=
  match props with
  | [] => None
  | (k', v) :: rest => if String.eqb k k' then Some v else get_own k rest
  end.

(** [o[k] = v] on an ordinary object: an existing property keeps its place. *)
Fixpoint set_own (k : string) (v : value) (props : list (string * value))
  : list (string * value) :=
  match props with
  | [] => [(k, v)]
  | (k', v') :: rest =>
      if String.eqb k k' then (k', v) :: rest else (k', v') :: set_own k v rest
  end.

(** [o.k] for a value that is known not to be [null] or [undefined], and a
    name [k] that objects do not inherit: the own property, or [undefined]. *)
Definition get_prop (k : string) (o : value) : value :=
  match o with
  | VObj props => match get_own k props with Some v => v | None => VUndefined end
  | _ => VUndefined
  end.

Definition index_key (i : nat) : string :=
  NilEmpty.string_of_uint (Nat.to_uint i).

Fixpoint indexed {A : Type} (f : A -> value) (i : nat) (l : list A)
  : list (string * value) :=
  match l with
  | [] => []
  | x :: rest => (index_key i, f x) :: indexed f (S i) rest
  end.

(** The own enumerable properties copied by the spread [{...v}]. *)
Definition spread (v : value) : list (string * value) :=
  match v with
  | VObj props => props
  | VArr items => indexed (fun x => x) 0 items
  | VStr s => indexed (fun c => VStr (String c EmptyString)) 0 (list_ascii_of_string s)
  | _ => []
  end.

(** [s.split(sep)] for a non-empty separator. *)
Fixpoint split_go (sep s : string) (skip : nat) (cur : string) : list string :=
  match s with
  | EmptyString => [cur]
  | String c rest =>
      match skip with
      | S k => split_go sep rest k cur
      | O =>
          if String.prefix sep s
          then cur :: split_go sep rest (String.length sep - 1) EmptyString
          else split_go sep rest 0 (cur +:+ String c EmptyString)
      end
  end.

Definition split (sep s : string) : list string := split_go sep s 0 EmptyString.

(** [v.map(f)]: only an array has a callable [map]; [JSON.parse] never builds
    a function, so every other receiver raises a [TypeError]. *)
Definition array_map (f : value -> value) (v : value) : outcome (list value) :=
  match v with
  | VArr items => Return (map f items)
  | _ => Throw TypeError
  end.

End JS.

Import JS.

(** ** [JSON.parse]

    The platform function, as a recursive-descent reader of the JSON grammar
    (ECMA-404).  The text is the byte string of its UTF-8 encoding; a [\u]
    escape is decoded to the UTF-8 bytes of its code unit. *)

Module JSON.

Inductive parsed (A : Type) : Type :=
| Parsed (a : A) (rest : string)
| Malformed
| OutOfFuel.
Arguments Parsed {A} a rest.
Arguments Malformed {A}.
Arguments OutOfFuel {A}.

Definition dquote : ascii := "034"%char.

Definition is_ws (c : ascii) : bool :=
  match c with
  | " "%char | "009"%char | "010"%char | "013"%char => true
  | _ => false
  end.

Fixpoint skip_ws (s : string) : string :=
  match s with
  | String c rest => if is_ws c then skip_ws rest else s
  | EmptyString => s
  end.

Fixpoint strip_prefix (p s : string) : option string :=
  match p with
  | EmptyString => Some s
  | String a p' =>
      match s with
      | String b s' => if Ascii.eqb a b then strip_prefix p' s' else None
      | EmptyString => None
      end
  end.

Definition is_digit (c : ascii) : bool :=
  let n := nat_of_ascii c in (48 <=? n)%nat && (n <=? 57)%nat.

Fixpoint digits (s : string) : string * string :=
  match s with
  | String c rest =>
      if is_digit c then let (ds, r) := digits rest in (String c ds, r)
      else (EmptyString, s)
  | EmptyString => (EmptyString, s)
  end.

(** [eat c s]: the rest of [s] after its first character, when that is [c]. *)
Definition eat (c : ascii) (s : string) : option string :=
  match s with
  | String c' rest => if Ascii.eqb c c' then Some rest else None
  | EmptyString => None
  end.

(** number = [ minus ] int [ frac ] [ exp ] *)
Definition parse_int (s : string) : option (string * string) :=
  match s with
  | String c rest =>
      if Ascii.eqb c "0"%char then Some ("0", rest)
      else if is_digit c then let (ds, r) := digits rest in Some (String c ds, r)
      else None
  | EmptyString => None
  end.

Definition parse_frac (s : string) : option (string * string) :=
  match eat "."%char s with
  | Some rest =>
      let (ds, r) := digits rest in
      if String.eqb ds EmptyString then None else Some (String "."%char ds, r)
  | None => Some (EmptyString, s)
  end.

Definition parse_sign (s : string) : string * string :=
  match eat "+"%char s with
  | Some r => ("+", r)
  | None =>
      match eat "-"%char s with
      | Some r => ("-", r)
      | None => (EmptyString, s)
      end
  end.

Definition parse_exp (s : string) : option (string * string) :=
  match s with
  | String e rest =>
      if Ascii.eqb e "e"%char || Ascii.eqb e "E"%char then
        let (sign, rest') := parse_sign rest in
        let (ds, r) := digits rest' in
        if String.eqb ds EmptyString then None else Some (String e (sign +:+ ds), r)
      else Some (EmptyString, s)
  | EmptyString => Some (EmptyString, s)
  end.

Definition parse_number (s : string) : option (string * string) :=
  let (sign, s1) :=
    match eat "-"%char s with
    | Some r => ("-", r)
    | None => (EmptyString, s)
    end in
  match parse_int s1 with
  | None => None
  | Some (i, s2) =>
      match parse_frac s2 with
      | None => None
      | Some (f, s3) =>
          match parse_exp s3 with
          | None => None
          | Some (e, s4) => Some (sign +:+ i +:+ f +:+ e, s4)
          end
      end
  end.

Definition hex_digit (c : ascii) : option N :=
  let n := N_of_ascii c in
  if (48 <=? n)%N && (n <=? 57)%N then Some (n - 48)%N
  else if (65 <=? n)%N && (n <=? 70)%N then Some (n - 55)%N
  else if (97 <=? n)%N && (n <=? 102)%N then Some (n - 87)%N
  else None.

Definition hex4 (a b c d : ascii) : option N :=
  match hex_digit a, hex_digit b, hex_digit c, hex_digit d with
  | Some x, Some y, Some z, Some w => Some (((x * 16 + y) * 16 + z) * 16 + w)%N
  | _, _, _, _ => None
  end.

(** UTF-8 bytes of one UTF-16 code unit. *)
Definition utf8 (u : N) : string :=
  if (u <? 128)%N then String (ascii_of_N u) EmptyString
  else if (u <? 2048)%N then
    String (ascii_of_N (192 + u / 64))
      (String (ascii_of_N (128 + u mod 64)) EmptyString)
  else
    String (ascii_of_N (224 + u / 4096))
      (String (ascii_of_N (128 + (u / 64) mod 64))
        (String (ascii_of_N (128 + u mod 64)) EmptyString)).

Definition simple_escape (e : ascii) : option ascii :=
  match e with
  | "034"%char => Some "034"%char
  | "\"%char => Some "\"%char
  | "/"%char => Some "/"%char
  | "b"%char => Some "008"%char
  | "f"%char => Some "012"%char
  | "n"%char => Some "010"%char
  | "r"%char => Some "013"%char
  | "t"%char => Some "009"%char
  | _ => None
  end.

(** The characters of a string literal, after its opening quote. *)
Fixpoint parse_chars (s : string) : option (string * string) :=
  match s with
  | EmptyString => None
  | String c rest =>
      if Ascii.eqb c dquote then Some (EmptyString, rest)
      else if Ascii.eqb c "\"%char then
        match rest with
        | String e rest1 =>
            if Ascii.eqb e "u"%char then
              match rest1 with
              | String h1 (String h2 (String h3 (String h4 rest2))) =>
                  match hex4 h1 h2 h3 h4, parse_chars rest2 with
                  | Some u, Some (body, r) => Some (utf8 u +:+ body, r)
                  | _, _ => None
                  end
              | _ => None
              end
            else
              match simple_escape e, parse_chars rest1 with
              | Some x, Some (body, r) => Some (String x body, r)
              | _, _ => None
              end
        | EmptyString => None
        end
      else if (nat_of_ascii c <? 32)%nat then None
      else
        match parse_chars rest with
        | Some (body, r) => Some (String c body, r)
        | None => None
        end
  end.

Definition parse_atom (s : string) : parsed value :=
  match strip_prefix "true" s with
  | Some r => Parsed (VBool true) r
  | None =>
  match strip_prefix "false" s with
  | Some r => Parsed (VBool false) r
  | None =>
  match strip_prefix "null" s with
  | Some r => Parsed VNull r
  | None =>
  match parse_number s with
  | Some (lit, r) => Parsed (VNum lit) r
  | None => Malformed
  end end end end.

(** value, elements (after a value is due) and members (after a key is due).
    A later duplicate key overwrites the earlier one, as [JSON.parse] does. *)
Fixpoint parse_value (fuel : nat) (s : string) {struct fuel} : parsed value :=
  match fuel with
  | O => OutOfFuel
  | S fuel' =>
      match eat "{"%char (skip_ws s) with
      | Some rest =>
          match eat "}"%char (skip_ws rest) with
          | Some r => Parsed (VObj []) r
          | None =>
              match parse_members fuel' rest [] with
              | Parsed props r => Parsed (VObj props) r
              | Malformed => Malformed
              | OutOfFuel => OutOfFuel
              end
          end
      | None =>
      match eat "["%char (skip_ws s) with
      | Some rest =>
          match eat "]"%char (skip_ws rest) with
          | Some r => Parsed (VArr []) r
          | None =>
              match parse_elements fuel' rest with
              | Parsed items r => Parsed (VArr items) r
              | Malformed => Malformed
              | OutOfFuel => OutOfFuel
              end
          end
      | None =>
      match eat dquote (skip_ws s) with
      | Some rest =>
          match parse_chars rest with
          | Some (str, r) => Parsed (VStr str) r
          | None => Malformed
          end
      | None => parse_atom (skip_ws s)
      end end end
  end

with parse_elements (fuel : nat) (s : string) {struct fuel}
  : parsed (list value) :=
  match fuel with
  | O => OutOfFuel
  | S fuel' =>
      match parse_value fuel' s with
      | Parsed v r =>
          match eat ","%char (skip_ws r) with
          | Some r' =>
              match parse_elements fuel' r' with
              | Parsed vs r'' => Parsed (v :: vs) r''
              | Malformed => Malformed
              | OutOfFuel => OutOfFuel
              end
          | None =>
              match eat "]"%char (skip_ws r) with
              | Some r' => Parsed [v] r'
              | None => Malformed
              end
          end
      | Malformed => Malformed
      | OutOfFuel => OutOfFuel
      end
  end

with parse_members (fuel : nat) (s : string) (acc : list (string * value))
  {struct fuel} : parsed (list (string * value)) :=
  match fuel with
  | O => OutOfFuel
  | S fuel' =>
      match eat dquote (skip_ws s) with
      | Some rest =>
          match parse_chars rest with
          | Some (key, r) =>
              match eat ":"%char (skip_ws r) with
              | Some r' =>
                  match parse_value fuel' r' with
                  | Parsed v r'' =>
                      match eat ","%char (skip_ws r'') with
                      | Some r3 => parse_members fuel' r3 (set_own key v acc)
                      | None =>
                          match eat "}"%char (skip_ws r'') with
                          | Some r3 => Parsed (set_own key v acc) r3
                          | None => Malformed
                          end
                      end
                  | Malformed => Malformed
                  | OutOfFuel => OutOfFuel
                  end
              | None => Malformed
              end
          | None => Malformed
          end
      | None => Malformed
      end
  end.

Definition fuel_for (text : string) : nat := 2 * String.length text + 2.

(** [JSON.parse(text)]: one value, then only white space.  The third answer,
    [None], would mean the fuel ran out; [parse_total] rules it out. *)
Definition parse_with (fuel : nat) (text : string) : option (outcome value) :=
  match parse_value fuel text with
  | Parsed v rest =>
      match skip_ws rest with
      | EmptyString => Some (Return v)
      | _ => Some (Throw SyntaxError)
      end
  | Malformed => Some (Throw SyntaxError)
  | OutOfFuel => None
  end.

Definition parse (text : string) : outcome value :=
  match parse_with (fuel_for text) text with
  | Some r => r
  | None => Throw SyntaxError
  end.

End JSON.

(** ** Schema contracts: [types.ts] *)

(** A JavaScript number that is only passed along is carried as its decimal
    literal. *)
Definition number : Type := string.

Inductive Language : Type := en | ru | es.

Inductive Goal : Type :=
| WeightLoss | MuscleGain | Maintenance | AthleticPerformance.

Definition goal_text (g : Goal) : string :=
  match g with
  | WeightLoss => "Weight Loss"
  | MuscleGain => "Muscle Gain"
  | Maintenance => "Maintenance"
  | AthleticPerformance => "Athletic Performance"
  end.

Inductive ActivityLevel : Type := Sedentary | Moderate | Active | VeryActive.

Inductive MembershipTier : Type := Standard | Elite | Platinum | Founders.

(** [experienceLevel] is read by [getWorkoutPlan] although the interface does
    not declare it; it is [undefined] unless the caller's object carries it. *)
Record UserProfile : Type := {
  name : string;
  age : number;
  weight : number;
  height : number;
  goal : Goal;
  activityLevel : ActivityLevel;
  dietaryPreference : string;
  location : option string;
  membershipTier : option MembershipTier;
  memberSince : option string;
  memberId : option string;
  experienceLevel : option string
}.

(** ** The remote generation client: the parts of the SDK objects the
    source reads *)

Record Blob : Type := { mimeType : option string; data : option string }.

Record Part : Type := { inlineData : option Blob; part_text : option string }.

Record Source : Type := { uri : option string; title : option string }.

Record GroundingChunk : Type := { maps : option Source; web : option Source }.

Record GroundingMetadata : Type := {
  groundingChunks : option (list GroundingChunk)
}.

Record Content : Type := { parts : option (list Part) }.

Record Candidate : Type := {
  content : option Content;
  groundingMetadata : option GroundingMetadata
}.

Record Response : Type := {
  candidates : option (list Candidate);
  text : option string
}.

Record LatLng : Type := { latitude : number; longitude : number }.

(** What each call interpolates into its request. *)
Inductive Contents : Type :=
| ImagePrompt (mealName : string)
| EditPrompt (data : option string) (mime : option string) (prompt : string)
| MealPlanPrompt (profile : UserProfile) (goal : string) (languageName : string)
| WorkoutPlanPrompt (profile : UserProfile) (level : option string)
    (goal : string) (languageName : string)
| DiscoveryPrompt (location goal languageName : string) (latLng : option LatLng)
| ExtractionPrompt (searchText : option string) (chunks : list GroundingChunk).

Record Request : Type := { model : string; contents : Contents }.

Record Video : Type := { video_uri : option string }.

Record GeneratedVideo : Type := { video : option Video }.

Record VideosResponse : Type := {
  generatedVideos : option (list GeneratedVideo)
}.

Record Operation : Type := {
  done : option bool;
  response : option VideosResponse
}.

(** The backend behind [getAiClient()].  [getVideosOperation] also receives
    the number of the poll, since the backend's answer changes with time. *)
Record Backend : Type := {
  generateContent : Request -> outcome Response;
  generateVideos : string -> outcome Operation;
  getVideosOperation : nat -> Operation -> outcome Operation
}.

(** ** [services/geminiService.ts] *)

Definition getLanguageName (lang : Language) : string :=
  match lang with
  | ru => "Russian"
  | es => "Spanish"
  | _ => "English"
  end.

(** [response.candidates[0].content.parts.find(p => p.inlineData)]: every
    access but the last is unguarded, so a missing link raises. *)
Definition find_inline_part (response : Response) : outcome (option Part) :=
  match candidates response with
  | None => Throw TypeError
  | Some cs =>
      match cs with
      | [] => Throw TypeError
      | c :: _ =>
          match content c with
          | None => Throw TypeError
          | Some ct =>
              match parts ct with
              | None => Throw TypeError
              | Some ps =>
                  Return (List.find (fun p => match inlineData p with
                                              | Some _ => true
                                              | None => false
                                              end) ps)
              end
          end
      end
  end.

Definition data_url (b : Blob) : string :=
  "data:" +:+ template (mimeType b) +:+ ";base64," +:+ template (data b).

(** [part?.inlineData] *)
Definition inline_of (part : option Part) : option Blob :=
  match part with
  | Some p => inlineData p
  | None => None
  end.

Definition generateMealImage (ai : Backend) (mealName : string) : outcome string :=
  match generateContent ai
          {| model := "gemini-2.5-flash-image"; contents := ImagePrompt mealName |} with
  | Throw e => Throw e
  | Return response =>
      match find_inline_part response with
      | Throw e => Throw e
      | Return part =>
          match inline_of part with
          | Some blob => Return (data_url blob)
          | None => Return EmptyString
          end
      end
  end.

Definition editMealImage (ai : Backend) (base64Image prompt : string)
  : outcome string :=
  let pieces := split ";base64," base64Image in
  let mimeType := nth 0 pieces EmptyString in
  let data := nth_error pieces 1 in
  match generateContent ai
          {| model := "gemini-2.5-flash-image";
             contents := EditPrompt data (nth_error (split ":" mimeType) 1) prompt |} with
  | Throw e => Throw e
  | Return response =>
      match find_inline_part response with
      | Throw e => Throw e
      | Return part =>
          match inline_of part with
          | Some blob => Return (data_url blob)
          | None => Return base64Image
          end
      end
  end.

Definition q (s : string) : string :=
  String JSON.dquote (s +:+ String JSON.dquote EmptyString).

(** The literal on the right of [response.text || ...] in [getMealPlan]. *)
Definition EMPTY_MEAL_PLAN : string :=
  "{" +:+ q "days" +:+ ":[], " +:+ q "prepStrategy" +:+ ": {"
  +:+ q "batchPrepTasks" +:+ ":[], " +:+ q "storageTips" +:+ ":[], "
  +:+ q "shoppingList" +:+ ":[]}}".

Definition getMealPlan (ai : Backend) (profile : UserProfile) (lang : Language)
  : outcome value :=
  match generateContent ai
          {| model := "gemini-3-flash-preview";
             contents := MealPlanPrompt profile (goal_text (goal profile))
                           (getLanguageName lang) |} with
  | Throw e => Throw e
  | Return response => JSON.parse (or_default (text response) EMPTY_MEAL_PLAN)
  end.

Definition getWorkoutPlan (ai : Backend) (profile : UserProfile) (lang : Language)
  : outcome value :=
  match generateContent ai
          {| model := "gemini-3-flash-preview";
             contents := WorkoutPlanPrompt profile (experienceLevel profile)
                           (goal_text (goal profile)) (getLanguageName lang) |} with
  | Throw e => Throw e
  | Return response => JSON.parse (or_default (text response) "[]")
  end.

(** [response.candidates?.[0]?.groundingMetadata?.groundingChunks || []] *)
Definition chunks_of (response : Response) : list GroundingChunk :=
  match candidates response with
  | Some (c :: _) =>
      match groundingMetadata c with
      | Some gm =>
          match groundingChunks gm with
          | Some chunks => chunks
          | None => []
          end
      | None => []
      end
  | _ => []
  end.

(** [chunk.maps?.uri], [chunk.web?.uri], and the same for [title]. *)
Definition source_uri (s : option Source) : option string :=
  match s with Some src => uri src | None => None end.

Definition source_title (s : option Source) : option string :=
  match s with Some src => title src | None => None end.

(** [chunk.maps?.uri || chunk.web?.uri] *)
Definition chunk_uri (chunk : GroundingChunk) : option string :=
  or_str (source_uri (maps chunk)) (source_uri (web chunk)).

Definition has_uri (chunk : GroundingChunk) : bool := truthy_str (chunk_uri chunk).

Definition str_value (s : option string) : value :=
  match s with Some s => VStr s | None => VUndefined end.

(** The [GroundingLink] object literal built for a chunk. *)
Definition link_of (chunk : GroundingChunk) : value :=
  VObj [("uri", str_value (chunk_uri chunk));
        ("title", VStr (or_default
                          (or_str (source_title (maps chunk)) (source_title (web chunk)))
                          "View Source"))].

Definition groundingLinks_of (chunks : list GroundingChunk) : list value :=
  map link_of (List.filter has_uri chunks).

(** [{ ...gym, groundingLinks: groundingLinks.slice(0, 3) }] *)
Definition attach_links (groundingLinks : list value) (gym : value) : value :=
  VObj (set_own "groundingLinks" (VArr (firstn 3 groundingLinks)) (spread gym)).

(** The answer and what [console.error] received. *)
Definition getGymRecommendations (ai : Backend) (location goal : string)
    (lang : Language) (userCoords : option LatLng)
  : outcome (list value) * list error :=
  match generateContent ai
          {| model := "gemini-2.5-flash";
             contents := DiscoveryPrompt location goal (getLanguageName lang)
                           userCoords |} with
  | Throw e => (Throw e, [])
  | Return response =>
      let groundingChunks := chunks_of response in
      let groundingLinks := groundingLinks_of groundingChunks in
      match generateContent ai
              {| model := "gemini-3-flash-preview";
                 contents := ExtractionPrompt (text response) groundingChunks |} with
      | Throw e => (Throw e, [])
      | Return parseResponse =>
          match bind (JSON.parse (or_default (text parseResponse) "[]"))
                     (array_map (attach_links groundingLinks)) with
          | Return gyms => (Return gyms, [])
          | Throw e => (Return [], [e])
          end
      end
  end.

(** The five narrated poll counts of the loop, in the order of its [if]s. *)
Definition narrate (pollCount : nat) : list string :=
  (if Nat.eqb pollCount 2 then ["Synthesizing Movement Dynamics..."] else [])
  ++ (if Nat.eqb pollCount 4 then ["Mapping Muscle Group Activation..."] else [])
  ++ (if Nat.eqb pollCount 7 then ["Refining Biomechanical Precision..."] else [])
  ++ (if Nat.eqb pollCount 10 then ["Rendering Atmospheric Lighting..."] else [])
  ++ (if Nat.eqb pollCount 14 then ["Finalizing Visual Sequence..."] else []).

(** [!operation.done] *)
Definition is_done (operation : Operation) : bool :=
  match done operation with
  | Some b => b
  | None => false
  end.

(** The [while] loop; [progress] is what [onProgress] has received so far.
    The 8 second pause between polls is not represented.  [None]: the
    backend has not reported completion within [fuel] polls. *)
Fixpoint poll (ai : Backend) (fuel pollCount : nat) (operation : Operation)
    (progress : list string) : option (outcome Operation * list string) :=
  if is_done operation then Some (Return operation, progress)
  else
    match fuel with
    | O => None
    | S fuel' =>
        let pollCount := S pollCount in
        let progress := progress ++ narrate pollCount in
        match getVideosOperation ai pollCount operation with
        | Throw e => Some (Throw e, progress)
        | Return operation' => poll ai fuel' pollCount operation' progress
        end
    end.

(** [operation.response?.generatedVideos?.[0]?.video?.uri] *)
Definition downloadLink (operation : Operation) : option string :=
  match response operation with
  | Some r =>
      match generatedVideos r with
      | Some (g :: _) =>
          match video g with
          | Some v => video_uri v
          | None => None
          end
      | _ => None
      end
  | None => None
  end.

(** [API_KEY] is [process.env.API_KEY]. *)
Definition getExerciseVideo (ai : Backend) (API_KEY : option string)
    (exerciseName : string) (fuel : nat)
  : option (outcome string * list string) :=
  let progress := ["Initializing Bio-Visual Simulation..."] in
  match generateVideos ai exerciseName with
  | Throw e => Some (Throw e, progress)
  | Return operation =>
      let progress := progress ++ ["Accessing Neural Compute Pipeline..."] in
      match poll ai fuel 0 operation progress with
      | None => None
      | Some (Throw e, progress) => Some (Throw e, progress)
      | Some (Return operation, progress) =>
          let progress := progress ++ ["Simulation Complete. Finalizing Stream."] in
          Some (Return (template (downloadLink operation) +:+ "&key="
                        +:+ template API_KEY), progress)
      end
  end.

(** ** [components/MealPlanner.tsx]: the session image cache *)

Module MealPlanner.

Record Substitution : Type := {
  productName : string;
  benefits : string;
  instructions : string
}.

Record Meal : Type := {
  meal_name : string;
  calories : number;
  protein : number;
  carbs : number;
  fats : number;
  ingredients : list string;
  prepInstructions : string;
  prepTime : string;
  imageUrl : option string;
  herbalifeSubstitution : option Substitution
}.

Record Supplement : Type := { product : string; timing : string; purpose : string }.

(** A meal slot can hold [null] and [snacks] can fail to be an array: the
    source guards both ([m && ...], [Array.isArray(day.snacks)]). *)
Record DailyMealPlan : Type := {
  day : string;
  breakfast : option Meal;
  lunch : option Meal;
  dinner : option Meal;
  snacks : option (list (option Meal));
  supplementProtocol : list Supplement
}.

(** The module-level cache and the component state the cache code touches.
    [generated] records the argument of every [generateMealImage] call. *)
Record Planner : Type := {
  SESSION_IMAGE_CACHE : gmap string string;
  plans : list DailyMealPlan;
  selectedMeal : option Meal;
  editPrompt : string;
  isEditingImage : bool;
  generated : list string;
  console : list error
}.

Definition with_cache (c : gmap string string) (st : Planner) : Planner :=
  {| SESSION_IMAGE_CACHE := c; plans := plans st; selectedMeal := selectedMeal st;
     editPrompt := editPrompt st; isEditingImage := isEditingImage st;
     generated := generated st; console := console st |}.

Definition with_image (url : string) (m : Meal) : Meal :=
  {| meal_name := meal_name m; calories := calories m; protein := protein m;
     carbs := carbs m; fats := fats m; ingredients := ingredients m;
     prepInstructions := prepInstructions m; prepTime := prepTime m;
     imageUrl := Some url; herbalifeSubstitution := herbalifeSubstitution m |}.

(** [m && m.name === mealName ? { ...m, imageUrl: url } : m] *)
Definition update (mealName url : string) (m : option Meal) : option Meal :=
  match m with
  | Some meal =>
      if String.eqb (meal_name meal) mealName then Some (with_image url meal) else m
  | None => None
  end.

Definition update_day (mealName url : string) (d : DailyMealPlan) : DailyMealPlan :=
  {| day := day d;
     breakfast := update mealName url (breakfast d);
     lunch := update mealName url (lunch d);
     dinner := update mealName url (dinner d);
     snacks := Some match snacks d with
                    | Some l => map (update mealName url) l
                    | None => []
                    end;
     supplementProtocol := supplementProtocol d |}.

(** The cache overwrite of line 158, then the [setPlans] update. *)
Definition updateMealImageInState (mealName url : string) (st : Planner) : Planner :=
  {| SESSION_IMAGE_CACHE := assign mealName url (SESSION_IMAGE_CACHE st);
     plans := map (update_day mealName url) (plans st);
     selectedMeal := selectedMeal st;
     editPrompt := editPrompt st;
     isEditingImage := isEditingImage st;
     generated := generated st;
     console := console st |}.

(** [s.trim()] is empty: [s] is made of white space and line terminators
    only.  A string is the byte sequence of its UTF-8 encoding; beside the
    six ASCII ones, [trim] removes U+00A0, U+1680, U+2000 to U+200A, U+2028,
    U+2029, U+202F, U+205F, U+3000 and U+FEFF. *)
Definition is_space (c : ascii) : bool :=
  match c with
  | " "%char | "009"%char | "010"%char | "011"%char | "012"%char | "013"%char => true
  | _ => false
  end.

(** U+00A0 is [C2 A0]. *)
Definition is_space2 (c1 c2 : ascii) : bool :=
  Nat.eqb (nat_of_ascii c1) 194 && Nat.eqb (nat_of_ascii c2) 160.

(** U+1680 is [E1 9A 80]; U+2000 to U+200A, U+2028, U+2029 and U+202F are
    [E2 80 80] to [E2 80 8A], [E2 80 A8], [E2 80 A9] and [E2 80 AF]; U+205F is
    [E2 81 9F]; U+3000 is [E3 80 80]; U+FEFF is [EF BB BF]. *)
Definition is_space3 (c1 c2 c3 : ascii) : bool :=
  let b1 := nat_of_ascii c1 in
  let b2 := nat_of_ascii c2 in
  let b3 := nat_of_ascii c3 in
  (Nat.eqb b1 225 && Nat.eqb b2 154 && Nat.eqb b3 128)
  || (Nat.eqb b1 226 && Nat.eqb b2 128
      && ((Nat.leb 128 b3 && Nat.leb b3 138)
          || Nat.eqb b3 168 || Nat.eqb b3 169 || Nat.eqb b3 175))
  || (Nat.eqb b1 226 && Nat.eqb b2 129 && Nat.eqb b3 159)
  || (Nat.eqb b1 227 && Nat.eqb b2 128 && Nat.eqb b3 128)
  || (Nat.eqb b1 239 && Nat.eqb b2 187 && Nat.eqb b3 191).

Fixpoint blank (s : string) : bool :=
  match s with
  | EmptyString => true
  | String c1 rest1 =>
      if is_space c1 then blank rest1
      else
        match rest1 with
        | EmptyString => false
        | String c2 rest2 =>
            if is_space2 c1 c2 then blank rest2
            else
              match rest2 with
              | EmptyString => false
              | String c3 rest3 => is_space3 c1 c2 c3 && blank rest3
              end
        end
  end.

(** [handleEditImage], run until its promise settles. *)
Definition handleEditImage (ai : Backend) (promptOverride : option string)
    (st : Planner) : Planner :=
  let promptToUse := or_default promptOverride (editPrompt st) in
  match selectedMeal st with
  | None => st
  | Some meal =>
      match imageUrl meal with
      | None => st
      | Some current =>
          if String.eqb current EmptyString || blank promptToUse then st
          else
            match editMealImage ai current promptToUse with
            | Return newUrl =>
                let st := updateMealImageInState (meal_name meal) newUrl st in
                {| SESSION_IMAGE_CACHE := SESSION_IMAGE_CACHE st;
                   plans := plans st;
                   selectedMeal := Some (with_image newUrl meal);
                   editPrompt :=
                     if truthy_str promptOverride then editPrompt st else EmptyString;
                   isEditingImage := false;
                   generated := generated st;
                   console := console st |}
            | Throw e =>
                {| SESSION_IMAGE_CACHE := SESSION_IMAGE_CACHE st;
                   plans := plans st;
                   selectedMeal := selectedMeal st;
                   editPrompt := editPrompt st;
                   isEditingImage := false;
                   generated := generated st;
                   console := console st ++ [e] |}
            end
      end
  end.

(** *** The [MealImage] component *)

(** Its props ([onImageLoaded] is the planner's [updateMealImageInState] at
    the meal's name), its state ([image] is [imageUrl]), the [imageUrl] and
    [isVisible] that the last render gave to the dependency arrays, and the
    [fetchImage] calls still awaited, oldest first, each with the [isMounted]
    flag of its closure. *)
Record MealImage : Type := {
  mealName : string;
  existingUrl : option string;
  image : shown;
  loading : bool;
  isVisible : bool;
  seen_image : shown;
  seen_visible : bool;
  calls : list bool
}.

Definition with_state (image : shown) (loading isVisible : bool) (c : MealImage)
  : MealImage :=
  {| mealName := mealName c; existingUrl := existingUrl c; image := image;
     loading := loading; isVisible := isVisible; seen_image := seen_image c;
     seen_visible := seen_visible c; calls := calls c |}.

Definition with_calls (calls : list bool) (c : MealImage) : MealImage :=
  {| mealName := mealName c; existingUrl := existingUrl c; image := image c;
     loading := loading c; isVisible := isVisible c; seen_image := seen_image c;
     seen_visible := seen_visible c; calls := calls |}.

Definition with_generated (g : list string) (st : Planner) : Planner :=
  {| SESSION_IMAGE_CACHE := SESSION_IMAGE_CACHE st; plans := plans st;
     selectedMeal := selectedMeal st; editPrompt := editPrompt st;
     isEditingImage := isEditingImage st; generated := g; console := console st |}.

Definition with_console (l : list error) (st : Planner) : Planner :=
  {| SESSION_IMAGE_CACHE := SESSION_IMAGE_CACHE st; plans := plans st;
     selectedMeal := selectedMeal st; editPrompt := editPrompt st;
     isEditingImage := isEditingImage st; generated := generated st; console := l |}.

(** [existingUrl || SESSION_IMAGE_CACHE[mealName] || null] *)
Definition or_null (a : option string) (b : reading string) : shown :=
  match a with
  | Some s =>
      if negb (String.eqb s EmptyString) then Str s
      else match b with
           | Own t => if String.eqb t EmptyString then Null else Str t
           | Inherited => Builtin
           | Absent => Null
           end
  | None =>
      match b with
      | Own t => if String.eqb t EmptyString then Null else Str t
      | Inherited => Builtin
      | Absent => Null
      end
  end.

(** First render: the [useState] initialisers of lines 25 to 28.  Of the
    effects of the first commit, the one of lines 31 to 36 finds a truthy
    [existingUrl] already copied, and the fetch effect returns at once, the
    component not being visible yet. *)
Definition mount (mealName : string) (existingUrl : option string) (st : Planner)
  : MealImage :=
  let cached := read (SESSION_IMAGE_CACHE st) mealName in
  {| mealName := mealName;
     existingUrl := existingUrl;
     image := or_null existingUrl cached;
     loading := negb (truthy_str existingUrl) && negb (truthy_reading cached);
     isVisible := false;
     seen_image := or_null existingUrl cached;
     seen_visible := false;
     calls := [] |}.

(** The observer is installed only while there is no image (line 39); when
    it reports the placeholder on screen, [setIsVisible(true)]. *)
Definition intersect (c : MealImage) : MealImage :=
  if truthy_shown (image c) then c
  else with_state (image c) (loading c) true c.

(** The fetch effect up to its [await] (lines 51 to 55): it consults the
    component's own [imageUrl], never the cache. *)
Definition fetch_effect (c : MealImage) (st : Planner) : MealImage * Planner :=
  if negb (isVisible c) || truthy_shown (image c) then (c, st)
  else (with_calls (calls c ++ [true]) c,
        with_generated (generated st ++ [mealName c]) st).

(** The effect's cleanup (line 68): [isMounted = false] in the closure of
    the previous run; the closures of earlier runs are already so. *)
Definition cleanup (c : MealImage) : MealImage :=
  with_calls (map (fun _ => false) (calls c)) c.

(** One render and its commit.  [props] is [Some existingUrl] when the
    planner rendered (it then hands over [existingUrl] and a new inline
    [onImageLoaded]), and [None] when only the component's own state changed.
    The effects run in the order of the source, each on the state this render
    saw: the one of lines 31 to 36 when [existingUrl] changed, the fetch
    effect (cleanup, then lines 51 to 67) when one of [isVisible], [imageUrl],
    [onImageLoaded] changed.  The state written by the first effect is in
    place when the commit is over.  The meal a component shows keeps its
    name. *)
Definition render (props : option (option string)) (c : MealImage) (st : Planner)
  : MealImage * Planner :=
  let existingUrl' := match props with Some e => e | None => existingUrl c end in
  let synced := negb (same_str existingUrl' (existingUrl c)) && truthy_str existingUrl' in
  let refetch :=
    match props with Some _ => true | None => false end
    || negb (same_shown (image c) (seen_image c))
    || negb (Bool.eqb (isVisible c) (seen_visible c)) in
  let c :=
    {| mealName := mealName c; existingUrl := existingUrl'; image := image c;
       loading := loading c; isVisible := isVisible c; seen_image := image c;
       seen_visible := isVisible c; calls := calls c |} in
  let (c, st) := if refetch then fetch_effect (cleanup c) st else (c, st) in
  (if synced then
     with_state (match existingUrl' with Some s => Str s | None => Null end)
                false (isVisible c) c
   else c, st).

(** A render, and the one more that follows when its effects changed
    [imageUrl]. *)
Definition commit (props : option (option string)) (c : MealImage) (st : Planner)
  : MealImage * Planner :=
  let (c, st) := render props c st in
  if same_shown (image c) (seen_image c) then (c, st) else render None c st.

(** The rest of [fetchImage] once its [j]-th awaited call has settled with
    [r] (lines 56 to 65).  The third component is the locator handed to
    [onImageLoaded], if it was called. *)
Definition settle (j : nat) (r : outcome string) (c : MealImage) (st : Planner)
  : MealImage * Planner * option string :=
  match (calls c !! j : option bool) with
  | None => (c, st, None)
  | Some isMounted =>
      let c := with_calls (delete j (calls c)) c in
      match r with
      | Return url =>
          if isMounted then
            (with_state (Str url) false (isVisible c) c,
             updateMealImageInState (mealName c) url
               (with_cache (assign (mealName c) url (SESSION_IMAGE_CACHE st)) st),
             Some url)
          else (c, st, None)
      | Throw e =>
          (if isMounted then with_state (image c) false (isVisible c) c else c,
           with_console (console st ++ [e]) st,
           None)
      end
  end.

(** *** The components on screen *)

Record Screen : Type := {
  planner : Planner;
  images : list MealImage
}.

Inductive event : Type :=
| Mount (mealName : string) (existingUrl : option string)
| Intersect (i : nat)
| Settle (i j : nat) (r : outcome string).

(** The planner renders after [setPlans]: every component is rendered with
    the [imageUrl] its meal now has, which is [url] for the meals of the
    updated name. *)
Fixpoint rerender (name url : string) (cs : list MealImage) (st : Planner)
  : list MealImage * Planner :=
  match cs with
  | [] => ([], st)
  | c :: rest =>
      let existingUrl' :=
        if String.eqb (mealName c) name then Some url else existingUrl c in
      let (c', st') := commit (Some existingUrl') c st in
      let (rest', st'') := rerender name url rest st' in
      (c' :: rest', st'')
  end.

(** An event and the renders it causes: a component is mounted; the observer
    of the [i]-th component reports it on screen; the [j]-th awaited call of
    the [i]-th component settles with [r]. *)
Definition step (e : event) (s : Screen) : Screen :=
  match e with
  | Mount name existing =>
      {| planner := planner s; images := images s ++ [mount name existing (planner s)] |}
  | Intersect i =>
      match images s !! i with
      | None => s
      | Some c =>
          let (c', st') := commit None (intersect c) (planner s) in
          {| planner := st'; images := <[i := c']> (images s) |}
      end
  | Settle i j r =>
      match images s !! i with
      | None => s
      | Some c =>
          match settle j r c (planner s) with
          | (c', st', Some url) =>
              let (cs, st'') := rerender (mealName c) url (<[i := c']> (images s)) st' in
              {| planner := st''; images := cs |}
          | (c', st', None) =>
              let (c'', st'') := commit None c' st' in
              {| planner := st''; images := <[i := c'']> (images s) |}
          end
      end
  end.

Definition run (es : list event) (s : Screen) : Screen :=
  fold_left (fun s e => step e s) es s.

Definition screen (st : Planner) : Screen := {| planner := st; images := [] |}.

(** One look-up, nothing else on screen: the component is mounted, scrolls
    into view, and its call (if it made one) settles with the answer of
    [generateMealImage]; the renders that follow are part of it.  With an
    empty locator these renders have started the next call, still awaited
    when the look-up is handed back. *)
Definition lookup (ai : Backend) (mealName : string) (st : Planner)
  : MealImage * Planner :=
  let s := run [Mount mealName None; Intersect 0;
                Settle 0 0 (generateMealImage ai mealName)] (screen st) in
  (nth 0 (images s) (mount mealName None st), planner s).

(** Two look-ups of one key that overlap: both components are on screen and
    have started their call before either settles; then the call of the
    first settles with [r1], and the calls the second awaits settle, oldest
    first, with [r2] and [r3]. *)
Definition overlapping (key : string) (r1 r2 r3 : outcome string) (st : Planner)
  : Screen :=
  run [Mount key None; Mount key None; Intersect 0; Intersect 1;
       Settle 0 0 r1; Settle 1 0 r2; Settle 1 0 r3] (screen st).

Definition fresh : Planner :=
  {| SESSION_IMAGE_CACHE := ∅; plans := []; selectedMeal := None; editPrompt := EmptyString;
     isEditingImage := false; generated := []; console := [] |}.

End MealPlanner.

(** ** [components/WorkoutPlanner.tsx]: the session video cache *)

Module WorkoutPlanner.

(** [requested] records the argument of every [getExerciseVideo] call. *)
Record Lab : Type := {
  VIDEO_CACHE : gmap string string;
  activeExercise : option string;
  isDemoVisible : bool;
  currentVideoUrl : shown;
  videoLoading : bool;
  videoProgressMsg : string;
  requested : list string;
  console : list error
}.

(** [handleOpenDemo], run until its promise settles; [None] when the video
    backend has not completed within [fuel] polls.  [exercise] is
    [exercise.name]. *)
Definition handleOpenDemo (ai : Backend) (API_KEY : option string) (fuel : nat)
    (exercise : string) (st : Lab) : option Lab :=
  let cached := read (VIDEO_CACHE st) exercise in
  if truthy_reading cached then
    Some {| VIDEO_CACHE := VIDEO_CACHE st; activeExercise := Some exercise;
            isDemoVisible := true;
            currentVideoUrl := match cached with
                               | Own url => Str url
                               | Inherited => Builtin
                               | Absent => Null
                               end;
            videoLoading := false; videoProgressMsg := videoProgressMsg st;
            requested := requested st; console := console st |}
  else
    match getExerciseVideo ai API_KEY exercise fuel with
    | None => None
    | Some (Return url, progress) =>
        Some {| VIDEO_CACHE := assign exercise url (VIDEO_CACHE st);
                activeExercise := Some exercise; isDemoVisible := true;
                currentVideoUrl := Str url; videoLoading := false;
                videoProgressMsg := List.last progress "Initializing Simulation Lab...";
                requested := requested st ++ [exercise];
                console := console st |}
    | Some (Throw e, progress) =>
        Some {| VIDEO_CACHE := VIDEO_CACHE st;
                activeExercise := Some exercise; isDemoVisible := true;
                currentVideoUrl := currentVideoUrl st; videoLoading := false;
                videoProgressMsg := "Network Protocol Error. Please Retry.";
                requested := requested st ++ [exercise];
                console := console st ++ [e] |}
    end.

Definition fresh : Lab :=
  {| VIDEO_CACHE := ∅; activeExercise := None; isDemoVisible := false;
     currentVideoUrl := Null; videoLoading := false; videoProgressMsg := EmptyString;
     requested := []; console := [] |}.

End WorkoutPlanner.

(** ** Vocabulary of the properties *)

(** The value of the fallback literal of [getMealPlan]. *)
Definition CANONICAL_EMPTY : value :=
  VObj [("days", VArr []);
        ("prepStrategy", VObj [("batchPrepTasks", VArr []);
                               ("storageTips", VArr []);
                               ("shoppingList", VArr [])])].

Definition is_number (v : value) : bool :=
  match v with VNum _ => true | _ => false end.

Definition nullish (v : value) : bool :=
  match v with VUndefined | VNull => true | _ => false end.

(** A venue with numeric [lat] and [lng]. *)
Definition has_coordinates (gym : value) : bool :=
  is_number (get_prop "lat" gym) && is_number (get_prop "lng" gym).

(** A plan with at least one day and a prep strategy. *)
Definition complete_plan (v : value) : bool :=
  match get_prop "days" v with
  | VArr (_ :: _) => negb (nullish (get_prop "prepStrategy" v))
  | _ => false
  end.

(** The progress messages of [getExerciseVideo] in the order of the source
    text; the milestone index of a message is its position. *)
Definition MILESTONES : list string :=
  ["Initializing Bio-Visual Simulation...";
   "Accessing Neural Compute Pipeline...";
   "Synthesizing Movement Dynamics...";
   "Mapping Muscle Group Activation...";
   "Refining Biomechanical Precision...";
   "Rendering Atmospheric Lighting...";
   "Finalizing Visual Sequence...";
   "Simulation Complete. Finalizing Stream."].

Fixpoint index_of (msg : string) (l : list string) : nat :=
  match l with
  | [] => 0
  | m :: rest => if String.eqb msg m then 0 else S (index_of msg rest)
  end.

Definition milestone_index (msg : string) : nat := index_of msg MILESTONES.

(** The operation the client holds [n] polls after it held [operation] at
    poll count [pollCount], when every one of these polls answered and none
    of the operations before the last was done. *)
Fixpoint polled_from (ai : Backend) (pollCount : nat) (operation : Operation)
    (n : nat) : option Operation :=
  match n with
  | O => Some operation
  | S n' =>
      if is_done operation then None
      else
        match getVideosOperation ai (S pollCount) operation with
        | Return operation' => polled_from ai (S pollCount) operation' n'
        | Throw _ => None
        end
  end.

(** The same, counted from the submission. *)
Definition polled (ai : Backend) (exerciseName : string) (n : nat)
  : option Operation :=
  match generateVideos ai exerciseName with
  | Return operation => polled_from ai 0 operation n
  | Throw _ => None
  end.

(** What the loop narrates during polls [from + 1] to [from + n]. *)
Definition narration (from n : nat) : list string :=
  flat_map narrate (seq (S from) n).

(** A progress sequence whose milestone indices strictly increase, made of
    milestones only, and ending with the completion message. *)
Definition narrated_in_order (progress : list string) : Prop :=
  StronglySorted lt (map milestone_index progress) /\
  List.Forall (fun msg => In msg MILESTONES) progress /\
  List.last progress EmptyString = "Simulation Complete. Finalizing Stream.".

(** [kept] is what remains of [l], in the order of [l], once the elements
    that fail [keep] are taken out: the largest sub-list of [l] made of
    elements that pass. *)
Definition remains {A : Type} (keep : A -> bool) (l kept : list A) : Prop :=
  sublist kept l /\
  List.Forall (fun x => keep x = true) kept /\
  forall other, sublist other l -> List.Forall (fun x => keep x = true) other ->
                sublist other kept.


(** The two requests of [getGymRecommendations]. *)
Definition discovery (location goal : string) (lang : Language)
    (userCoords : option LatLng) : Request :=
  {| model := "gemini-2.5-flash";
     contents := DiscoveryPrompt location goal (getLanguageName lang) userCoords |}.

Definition extraction (response : Response) : Request :=
  {| model := "gemini-3-flash-preview";
     contents := ExtractionPrompt (text response) (chunks_of response) |}.

(** ** Backends used as examples *)

Definition no_videos : string -> outcome Operation :=
  fun _ => Throw (BackendError "no video service").

(** Every generation call is answered with the same response. *)
Definition answering (r : Response) : Backend :=
  {| generateContent := fun _ => Return r;
     generateVideos := no_videos;
     getVideosOperation := fun _ _ => Throw (BackendError "no video service") |}.

Definition text_only (t : string) : Response :=
  {| candidates := None; text := Some t |}.

(** A response whose only candidate carries the given parts and chunks. *)
Definition candidate_with (ps : list Part) (chunks : list GroundingChunk)
    (t : option string) : Response :=
  {| candidates :=
       Some [{| content := Some {| parts := Some ps |};
                groundingMetadata := Some {| groundingChunks := Some chunks |} |}];
     text := t |}.

(** A response without any candidate, as for a blocked prompt. *)
Definition no_candidates : Response := {| candidates := Some []; text := None |}.

Definition png (payload : string) : Part :=
  {| inlineData := Some {| mimeType := Some "image/png"; data := Some payload |};
     part_text := None |}.

(** A video backend that reports completion at the [n]-th poll. *)
Definition done_after (n : nat) (result : option VideosResponse) : Backend :=
  {| generateContent := fun _ => Throw (BackendError "no content service");
     generateVideos := fun _ => Return {| done := if Nat.eqb n 0 then Some true else None;
                                          response := if Nat.eqb n 0 then result else None |};
     getVideosOperation := fun k _ =>
       Return {| done := Some (Nat.leb n k);
                 response := if Nat.leb n k then result else None |} |}.

(** A finished operation's response with one video at [link]. *)
Definition one_video (link : string) : VideosResponse :=
  {| generatedVideos := Some [{| video := Some {| video_uri := Some link |} |}] |}.

Definition someone : UserProfile :=
  {| name := "Sam"; age := "30"; weight := "85"; height := "180";
     goal := MuscleGain; activityLevel := Active; dietaryPreference := "none";
     location := None; membershipTier := None; memberSince := None;
     memberId := None; experienceLevel := None |}.

(** A planner in which a meal with an image is selected for editing. *)
Definition salmon : MealPlanner.Meal :=
  {| MealPlanner.meal_name := "Grilled Salmon";
     MealPlanner.calories := "520"; MealPlanner.protein := "42";
     MealPlanner.carbs := "18"; MealPlanner.fats := "30";
     MealPlanner.ingredients := ["salmon"; "lemon"];
     MealPlanner.prepInstructions := "Grill.";
     MealPlanner.prepTime := "20 min";
     MealPlanner.imageUrl := Some "data:image/png;base64,AAAA";
     MealPlanner.herbalifeSubstitution := None |}.

Definition editing : MealPlanner.Planner :=
  {| MealPlanner.SESSION_IMAGE_CACHE :=
       {[ "Grilled Salmon" := "data:image/png;base64,AAAA" ]};
     MealPlanner.plans := [];
     MealPlanner.selectedMeal := Some salmon;
     MealPlanner.editPrompt := "Add fresh herbs";
     MealPlanner.isEditingImage := false;
     MealPlanner.generated := ["Grilled Salmon"];
     MealPlanner.console := [] |}.

(** A meal without an image, and a planner that shows it twice on one day,
    as breakfast and as the first snack; nothing is cached. *)
Definition oats : MealPlanner.Meal :=
  {| MealPlanner.meal_name := "Overnight Oats";
     MealPlanner.calories := "410"; MealPlanner.protein := "22";
     MealPlanner.carbs := "55"; MealPlanner.fats := "11";
     MealPlanner.ingredients := ["oats"; "milk"];
     MealPlanner.prepInstructions := "Soak overnight.";
     MealPlanner.prepTime := "5 min";
     MealPlanner.imageUrl := None;
     MealPlanner.herbalifeSubstitution := None |}.

Definition oats_twice : MealPlanner.Planner :=
  {| MealPlanner.SESSION_IMAGE_CACHE := ∅;
     MealPlanner.plans :=
       [{| MealPlanner.day := "Day 1";
           MealPlanner.breakfast := Some oats; MealPlanner.lunch := Some salmon;
           MealPlanner.dinner := None; MealPlanner.snacks := Some [Some oats];
           MealPlanner.supplementProtocol := [] |}];
     MealPlanner.selectedMeal := None;
     MealPlanner.editPrompt := EmptyString;
     MealPlanner.isEditingImage := false;
     MealPlanner.generated := [];
     MealPlanner.console := [] |}.



(** ** More vocabulary for the media operation *)

(** The operation the client holds when the poll numbered [n + 1] raises
    [e]: everything before it answered and was not done. *)
Definition fails_at (ai : Backend) (exerciseName : string) (n : nat) (e : error)
  : Prop :=
  match generateVideos ai exerciseName with
  | Return operation =>
      exists last, polled_from ai 0 operation n = Some last /\
                   is_done last = false /\
                   getVideosOperation ai (S n) last = Throw e
  | Throw _ => False
  end.

(** The poll count at which the loop narrates each of its five messages. *)
Definition THRESHOLDS : list (nat * string) :=
  [(2, "Synthesizing Movement Dynamics...");
   (4, "Mapping Muscle Group Activation...");
   (7, "Refining Biomechanical Precision...");
   (10, "Rendering Atmospheric Lighting...");
   (14, "Finalizing Visual Sequence...")].

(** A video backend whose poll numbered [n] raises. *)
Definition failing_at (n : nat) : Backend :=
  {| generateContent := fun _ => Throw (BackendError "no content service");
     generateVideos := fun _ => Return {| done := None; response := None |};
     getVideosOperation := fun k _ =>
       if Nat.eqb k n then Throw (BackendError "quota")
       else Return {| done := Some false; response := None |} |}.

(** A backend that answers the discovery request and fails the extraction. *)
Definition extraction_fails (r : Response) : Backend :=
  {| generateContent := fun request =>
       match contents request with
       | ExtractionPrompt _ _ => Throw (BackendError "overloaded")
       | _ => Return r
       end;
     generateVideos := no_videos;
     getVideosOperation := fun _ _ => Throw (BackendError "no video service") |}.

(** [c] does not occur in [s]. *)
Fixpoint lacks (c : ascii) (s : string) : bool :=
  match s with
  | EmptyString => true
  | String a rest => negb (Ascii.eqb c a) && lacks c rest
  end.

(** The meals a day of the plan shows: its three main meals and its snacks,
    leaving out the empty slots. *)
Definition meals_of (d : MealPlanner.DailyMealPlan) : list MealPlanner.Meal :=
  omap id ([MealPlanner.breakfast d; MealPlanner.lunch d; MealPlanner.dinner d]
           ++ match MealPlanner.snacks d with Some l => l | None => [] end).

(** A plan of two days in which one meal name occurs three times. *)
Definition two_days : list MealPlanner.DailyMealPlan :=
  [{| MealPlanner.day := "Day 1";
      MealPlanner.breakfast := Some oats; MealPlanner.lunch := Some salmon;
      MealPlanner.dinner := None; MealPlanner.snacks := Some [Some salmon; None];
      MealPlanner.supplementProtocol := [] |};
   {| MealPlanner.day := "Day 2";
      MealPlanner.breakfast := Some oats; MealPlanner.lunch := None;
      MealPlanner.dinner := Some salmon; MealPlanner.snacks := None;
      MealPlanner.supplementProtocol := [] |}].

Definition planning : MealPlanner.Planner :=
  {| MealPlanner.SESSION_IMAGE_CACHE := ∅;
     MealPlanner.plans := two_days;
     MealPlanner.selectedMeal := None;
     MealPlanner.editPrompt := EmptyString;
     MealPlanner.isEditingImage := false;
     MealPlanner.generated := [];
     MealPlanner.console := [] |}.

(** ** [components/MealPlanner.tsx] and [components/WorkoutPlanner.tsx]:
    check marks *)

(** A [Record<string, boolean>] read by truthiness: a key without an own
    property reads as unchecked, unless it names something every object
    inherits, which is truthy. *)
Definition checked (marks : gmap string bool) (key : string) : bool :=
  match read marks key with
  | Own b => b
  | Inherited => true
  | Absent => false
  end.

(** [prev => ({ ...prev, [mealName]: !prev[mealName] })]: the computed key of
    the literal defines an own property, whatever the name. *)
Definition toggleConsumed (mealName : string) (prev : gmap string bool)
  : gmap string bool :=
  <[mealName := negb (checked prev mealName)]> prev.

(** [prev => ({ ...prev, [item]: !prev[item] })] *)
Definition toggleShopping (item : string) (prev : gmap string bool)
  : gmap string bool :=
  <[item := negb (checked prev item)]> prev.

(** [prev => ({ ...prev, [exerciseName]: !prev[exerciseName] })] *)
Definition toggleComplete (exerciseName : string) (prev : gmap string bool)
  : gmap string bool :=
  <[exerciseName := negb (checked prev exerciseName)]> prev.

(** ** [components/MealPlanner.tsx]: the shopping categories *)

Module Shopping.

(** [category] can be missing or empty in a payload: the source reads it
    with [i.category || 'Other']. *)
Record ShoppingItem : Type := {
  item : string;
  amount : string;
  category : option string
}.

Record PrepStrategy : Type := {
  batchPrepTasks : list string;
  storageTips : list string;
  shoppingList : option (list ShoppingItem)
}.

(** [new Set(l)] followed by [Array.from]: the elements in the order of
    their first occurrence. *)
Fixpoint set_from (l : list string) (set : list string) : list string :=
  match l with
  | [] => set
  | x :: rest =>
      set_from rest (if existsb (String.eqb x) set then set else set ++ [x])
  end.

(** The memo of lines 219 to 222; [prepStrategy] is [null] until a plan has
    been fetched. *)
Definition shoppingCategories (prepStrategy : option PrepStrategy) : list string :=
  let list :=
    match prepStrategy with
    | Some p => match shoppingList p with Some l => l | None => [] end
    | None => []
    end in
  set_from (map (fun i => or_default (category i) "Other") list) [].

End Shopping.

(** ** [components/GymFinder.tsx]: the amenity filter toggles *)

Module GymFinder.

(** [prev.includes(amenity) ? prev.filter(a => a !== amenity)
                             : [...prev, amenity]] *)
Definition toggleAmenity (amenity : string) (prev : list string) : list string :=
  if existsb (String.eqb amenity) prev
  then List.filter (fun a => negb (String.eqb a amenity)) prev
  else prev ++ [amenity].

End GymFinder.

(** ** [App.tsx]: the health log *)

Module App.

Record HealthLog : Type := {
  date : string;
  log_weight : number;
  caloriesConsumed : number;
  caloriesBurned : number;
  waterIntake : number;
  log_protein : number;
  log_carbs : number;
  log_fats : number
}.

Record State : Type := {
  logs : list HealthLog;
  profile : UserProfile;
  activeTab : string
}.

(** [{ ...prev, weight: newLog.weight }] *)
Definition with_weight (w : number) (p : UserProfile) : UserProfile :=
  {| name := name p; age := age p; weight := w; height := height p;
     goal := goal p; activityLevel := activityLevel p;
     dietaryPreference := dietaryPreference p; location := location p;
     membershipTier := membershipTier p; memberSince := memberSince p;
     memberId := memberId p; experienceLevel := experienceLevel p |}.

Definition addLog (newLog : HealthLog) (st : State) : State :=
  {| logs := List.filter (fun l => negb (String.eqb (date l) "Today")) (logs st)
             ++ [newLog];
     profile := with_weight (log_weight newLog) (profile st);
     activeTab := "dashboard" |}.

(** The dashboard's [logs[logs.length - 1] || { weight: 0, ... }]; [None]
    stands for the literal of zeros on the right. *)
Definition latestLog (logs : list HealthLog) : option HealthLog :=
  match logs with
  | [] => None
  | first :: rest => Some (List.last rest first)
  end.

End App.

(** ** [components/WorkoutPlanner.tsx]: the loader's step indicator *)

Module Loader.

(** [s.includes(sub)] *)
Fixpoint includes (s sub : string) : bool :=
  String.prefix sub s ||
  match s with
  | String _ rest => includes rest sub
  | EmptyString => false
  end.

Definition getCurrentStep (progress : string) : nat :=
  if includes progress "Simulation" then 0
  else if includes progress "Compute" then 1
  else if includes progress "Synthesis" || includes progress "Mapping" then 2
  else if includes progress "Refining" || includes progress "Atmospheric" then 3
  else if includes progress "Finalizing" || includes progress "Complete" then 4
  else 2.

End Loader.

(** ** [components/ChatAssistant.tsx] *)

Module ChatAssistant.

Inductive Role : Type := user | model.

Record Message : Type := { role : Role; text : string }.

(** What iterating the result of [sendMessageStream] yields: the [text] of
    each chunk, then the end of the stream or an error. *)
Record Stream : Type := {
  chunks : list (option string);
  failure : option error
}.

Record State : Type := {
  messages : list Message;
  inputValue : string;
  isTyping : bool
}.

(** [newMessages[newMessages.length - 1].text = fullText]; the list is never
    empty where the source does this. *)
Fixpoint set_last_text (fullText : string) (l : list Message) : list Message :=
  match l with
  | [] => []
  | [m] => [{| role := role m; text := fullText |}]
  | m :: rest => m :: set_last_text fullText rest
  end.

(** One turn of the [for await] loop. *)
Definition receive (acc : string * list Message) (chunk : option string)
  : string * list Message :=
  let fullText := fst acc +:+ template chunk in
  (fullText, set_last_text fullText (snd acc)).

(** [handleSendMessage], run until its promise settles; [chat] is
    [chatRef.current]. *)
Definition handleSendMessage (chat : option (string -> outcome Stream))
    (text : string) (st : State) : State :=
  match chat with
  | None => st
  | Some sendMessageStream =>
      if MealPlanner.blank text || isTyping st then st
      else
        let sent := messages st ++ [{| role := user; text := text |}] in
        match sendMessageStream text with
        | Throw _ =>
            {| messages := sent ++ [{| role := model; text := "Connection error." |}];
               inputValue := EmptyString; isTyping := false |}
        | Return result =>
            let started := sent ++ [{| role := model; text := EmptyString |}] in
            let streamed := snd (fold_left receive (chunks result)
                                   (EmptyString, started)) in
            {| messages :=
                 match failure result with
                 | Some _ =>
                     streamed ++ [{| role := model; text := "Connection error." |}]
                 | None => streamed
                 end;
               inputValue := EmptyString; isTyping := false |}
        end
  end.

End ChatAssistant.

(** ** [fetchPlans] and [fetchWorkouts] *)

Section Fetch.

(** Whether the number written as a literal is truthy, that is neither
    zero nor rounded to zero: the floating-point part of the platform, left
    as a parameter. *)
Variable number_truthy : string -> bool.

Definition truthy (v : value) : bool :=
  match v with
  | VUndefined | VNull => false
  | VBool b => b
  | VNum literal => number_truthy literal
  | VStr s => negb (String.eqb s EmptyString)
  | VArr _ | VObj _ => true
  end.

(** [a || b] on values. *)
Definition or_value (a b : value) : value := if truthy a then a else b.

(** [data.key]: reading a property of [null] or [undefined] raises. *)
Definition member (key : string) (data : value) : outcome value :=
  match data with
  | VUndefined | VNull => Throw TypeError
  | _ => Return (get_prop key data)
  end.

Record MealPlans : Type := {
  plans : value;
  prepStrategy : value;
  activeDayIdx : nat;
  plans_loading : bool;
  plans_console : list error
}.

(** [fetchPlans] of [MealPlanner.tsx], run until its promise settles. *)
Definition fetchPlans (ai : Backend) (profile : UserProfile) (lang : Language)
    (st : MealPlans) : MealPlans :=
  match bind (getMealPlan ai profile lang) (fun data =>
          bind (member "days" data) (fun days =>
          bind (member "prepStrategy" data) (fun strategy =>
          Return (or_value days (VArr []), or_value strategy VNull)))) with
  | Return (days, strategy) =>
      {| plans := days; prepStrategy := strategy; activeDayIdx := 0;
         plans_loading := false; plans_console := plans_console st |}
  | Throw e =>
      {| plans := plans st; prepStrategy := prepStrategy st;
         activeDayIdx := activeDayIdx st;
         plans_loading := false; plans_console := plans_console st ++ [e] |}
  end.

(** [workoutPlan] is the copy [onPlanGenerated] keeps in [App.tsx]. *)
Record Workouts : Type := {
  workouts : value;
  workoutPlan : value;
  workouts_loading : bool;
  workouts_console : list error
}.

(** [fetchWorkouts] of [WorkoutPlanner.tsx], run until its promise settles;
    [notify] tells whether [onPlanGenerated] was passed. *)
Definition fetchWorkouts (ai : Backend) (profile : UserProfile) (lang : Language)
    (notify : bool) (st : Workouts) : Workouts :=
  match getWorkoutPlan ai profile lang with
  | Return data =>
      {| workouts := or_value data (VArr []);
         workoutPlan := if notify then or_value data (VArr []) else workoutPlan st;
         workouts_loading := false; workouts_console := workouts_console st |}
  | Throw e =>
      {| workouts := workouts st; workoutPlan := workoutPlan st;
         workouts_loading := false; workouts_console := workouts_console st ++ [e] |}
  end.

End Fetch.

(** * Facts about [JSON.parse] *)

Module JSONFacts.
Import JSON.

Lemma skip_ws_le s : String.length (skip_ws s) <= String.length s.
Proof.
  induction s as [|c s IH]; simpl; [lia|].
  destruct (is_ws c); simpl; lia.
Qed.

Lemma eat_length c s r : eat c s = Some r -> String.length s = S (String.length r).
Proof.
  destruct s as [|c' s]; simpl; [discriminate|].
  destruct (Ascii.eqb c c'); [|discriminate].
  intros [= ->]. reflexivity.
Qed.

Lemma strip_prefix_length p : forall s r,
  strip_prefix p s = Some r -> String.length s = String.length p + String.length r.
Proof.
  induction p as [|a p IH]; simpl; intros s r H.
  - injection H as ->. reflexivity.
  - destruct s as [|b s]; [discriminate|].
    destruct (Ascii.eqb a b); [|discriminate].
    simpl. rewrite (IH _ _ H). reflexivity.
Qed.

Lemma digits_le s : String.length (snd (digits s)) <= String.length s.
Proof.
  induction s as [|c s IH]; simpl; [lia|].
  destruct (is_digit c); simpl; [|lia].
  destruct (digits s) as [ds r]. simpl in *. lia.
Qed.

Lemma parse_int_lt s i r :
  parse_int s = Some (i, r) -> String.length r < String.length s.
Proof.
  destruct s as [|c s]; simpl; [discriminate|].
  destruct (Ascii.eqb c "0").
  - intros [= _ <-]. lia.
  - destruct (is_digit c); [|discriminate].
    pose proof (digits_le s) as Hd. destruct (digits s) as [ds r'].
    intros [= _ <-]. simpl in Hd. lia.
Qed.

Lemma parse_frac_le s f r :
  parse_frac s = Some (f, r) -> String.length r <= String.length s.
Proof.
  unfold parse_frac. destruct (eat "." s) as [rest|] eqn:He.
  - apply eat_length in He. pose proof (digits_le rest) as Hd.
    destruct (digits rest) as [ds r']. destruct (String.eqb ds EmptyString); [discriminate|].
    intros [= _ <-]. simpl in Hd. lia.
  - intros [= _ <-]. lia.
Qed.

Lemma parse_sign_le s : String.length (snd (parse_sign s)) <= String.length s.
Proof.
  unfold parse_sign. destruct (eat "+" s) as [r|] eqn:H1.
  - apply eat_length in H1. simpl. lia.
  - destruct (eat "-" s) as [r|] eqn:H2; simpl; [|lia].
    apply eat_length in H2. lia.
Qed.

Lemma parse_exp_le s e r :
  parse_exp s = Some (e, r) -> String.length r <= String.length s.
Proof.
  destruct s as [|c s]; simpl.
  - intros [= _ <-]. simpl. lia.
  - destruct (Ascii.eqb c "e" || Ascii.eqb c "E").
    + pose proof (parse_sign_le s) as Hs. destruct (parse_sign s) as [sg rest'].
      pose proof (digits_le rest') as Hd. destruct (digits rest') as [ds r'].
      destruct (String.eqb ds EmptyString); [discriminate|].
      intros [= _ <-]. simpl in *. lia.
    + intros [= _ <-]. simpl. lia.
Qed.

Lemma parse_number_lt s lit r :
  parse_number s = Some (lit, r) -> String.length r < String.length s.
Proof.
  unfold parse_number.
  assert (Hs : String.length
            (snd (match eat "-" s with Some r0 => ("-", r0) | None => (EmptyString, s) end))
          <= String.length s).
  { destruct (eat "-" s) as [r0|] eqn:He; simpl; [|lia].
    apply eat_length in He. lia. }
  destruct (match eat "-" s with Some r0 => ("-", r0) | None => (EmptyString, s) end)
    as [sg s1].
  destruct (parse_int s1) as [[i s2]|] eqn:Hi; [|discriminate].
  destruct (parse_frac s2) as [[f s3]|] eqn:Hf; [|discriminate].
  destruct (parse_exp s3) as [[e s4]|] eqn:Hx; [|discriminate].
  intros [= _ <-].
  apply parse_int_lt in Hi. apply parse_frac_le in Hf. apply parse_exp_le in Hx.
  simpl in Hs. lia.
Qed.

Lemma parse_atom_lt s v r :
  parse_atom s = Parsed v r -> String.length r < String.length s.
Proof.
  unfold parse_atom.
  destruct (strip_prefix "true" s) eqn:H1.
  { intros [= _ <-]. apply strip_prefix_length in H1. simpl in H1. lia. }
  destruct (strip_prefix "false" s) eqn:H2.
  { intros [= _ <-]. apply strip_prefix_length in H2. simpl in H2. lia. }
  destruct (strip_prefix "null" s) eqn:H3.
  { intros [= _ <-]. apply strip_prefix_length in H3. simpl in H3. lia. }
  destruct (parse_number s) as [[lit r']|] eqn:H4; [|discriminate].
  intros [= _ <-]. eapply parse_number_lt; eauto.
Qed.

Lemma parse_atom_fuel s : parse_atom s <> OutOfFuel.
Proof.
  unfold parse_atom.
  repeat match goal with
         | |- context [match ?x with _ => _ end] => destruct x as [[? ?]|] || destruct x
         end; discriminate.
Qed.

Lemma parse_chars_bounded n : forall s b r,
  String.length s <= n ->
  parse_chars s = Some (b, r) -> String.length r < String.length s.
Proof.
  induction n as [|n IH]; intros s b r Hn H.
  { destruct s; [discriminate|simpl in Hn; lia]. }
  destruct s as [|c s]; [discriminate|]. simpl in H, Hn.
  destruct (Ascii.eqb c dquote).
  { injection H as _ <-. simpl. lia. }
  destruct (Ascii.eqb c "\").
  { destruct s as [|e s1]; [discriminate|]. simpl in Hn.
    destruct (Ascii.eqb e "u").
    - destruct s1 as [|h1 [|h2 [|h3 [|h4 s2]]]]; try discriminate.
      destruct (hex4 h1 h2 h3 h4); [|discriminate].
      destruct (parse_chars s2) as [[body r']|] eqn:Hc; [|discriminate].
      injection H as _ <-. apply IH in Hc; simpl in *; lia.
    - destruct (simple_escape e); [|discriminate].
      destruct (parse_chars s1) as [[body r']|] eqn:Hc; [|discriminate].
      injection H as _ <-. apply IH in Hc; simpl in *; lia. }
  destruct (nat_of_ascii c <? 32)%nat; [discriminate|].
  destruct (parse_chars s) as [[body r']|] eqn:Hc; [|discriminate].
  injection H as _ <-. apply IH in Hc; simpl; lia.
Qed.

Lemma parse_chars_lt s b r :
  parse_chars s = Some (b, r) -> String.length r < String.length s.
Proof. apply (parse_chars_bounded (String.length s)). lia. Qed.


Ltac eat_len :=
  repeat match goal with
         | H : eat _ _ = Some _ |- _ => apply eat_length in H
         | H : parse_chars _ = Some _ |- _ => apply parse_chars_lt in H
         end.

Lemma parse_consumes fuel :
  (forall s v r, parse_value fuel s = Parsed v r ->
     String.length r < String.length s) /\
  (forall s vs r, parse_elements fuel s = Parsed vs r ->
     String.length r < String.length s) /\
  (forall s acc ps r, parse_members fuel s acc = Parsed ps r ->
     String.length r < String.length s).
Proof.
  induction fuel as [|fuel (IHv & IHe & IHm)]; [repeat split; discriminate|].
  repeat split.
  - intros s v r. simpl. pose proof (skip_ws_le s) as Hs.
    destruct (eat "{" (skip_ws s)) as [rest|] eqn:E1.
    { pose proof (skip_ws_le rest) as Hr.
      destruct (eat "}" (skip_ws rest)) as [r0|] eqn:E2.
      - intros [= _ <-]. eat_len. lia.
      - destruct (parse_members fuel rest []) as [ps r0| |] eqn:Hm; try discriminate.
        intros [= _ <-]. apply IHm in Hm. eat_len. lia. }
    destruct (eat "[" (skip_ws s)) as [rest|] eqn:E2.
    { pose proof (skip_ws_le rest) as Hr.
      destruct (eat "]" (skip_ws rest)) as [r0|] eqn:E3.
      - intros [= _ <-]. eat_len. lia.
      - destruct (parse_elements fuel rest) as [vs r0| |] eqn:He; try discriminate.
        intros [= _ <-]. apply IHe in He. eat_len. lia. }
    destruct (eat dquote (skip_ws s)) as [rest|] eqn:E3.
    { destruct (parse_chars rest) as [[str r0]|] eqn:Hp; [|discriminate].
      intros [= _ <-]. eat_len. lia. }
    intros Ha. apply parse_atom_lt in Ha. lia.
  - intros s vs r. simpl.
    destruct (parse_value fuel s) as [v r0| |] eqn:Hv; try discriminate.
    apply IHv in Hv. pose proof (skip_ws_le r0) as Hr.
    destruct (eat "," (skip_ws r0)) as [r'|] eqn:E1.
    { destruct (parse_elements fuel r') as [vs' r''| |] eqn:He; try discriminate.
      intros [= _ <-]. apply IHe in He. eat_len. lia. }
    destruct (eat "]" (skip_ws r0)) as [r'|] eqn:E2; [|discriminate].
    intros [= _ <-]. eat_len. lia.
  - intros s acc ps r. simpl. pose proof (skip_ws_le s) as Hs.
    destruct (eat dquote (skip_ws s)) as [rest|] eqn:E1; [|discriminate].
    destruct (parse_chars rest) as [[key r0]|] eqn:Hp; [|discriminate].
    pose proof (skip_ws_le r0) as Hr0.
    destruct (eat ":" (skip_ws r0)) as [r'|] eqn:E2; [|discriminate].
    destruct (parse_value fuel r') as [v r''| |] eqn:Hv; try discriminate.
    apply IHv in Hv. pose proof (skip_ws_le r'') as Hr''.
    destruct (eat "," (skip_ws r'')) as [r3|] eqn:E3.
    { intros Hm. apply IHm in Hm. eat_len. lia. }
    destruct (eat "}" (skip_ws r'')) as [r3|] eqn:E4; [|discriminate].
    intros [= _ <-]. eat_len. lia.
Qed.

Lemma parse_fuel fuel :
  (forall s, 2 * String.length s + 2 <= fuel -> parse_value fuel s <> OutOfFuel) /\
  (forall s, 2 * String.length s + 3 <= fuel -> parse_elements fuel s <> OutOfFuel) /\
  (forall s acc, 2 * String.length s + 2 <= fuel ->
     parse_members fuel s acc <> OutOfFuel).
Proof.
  induction fuel as [|fuel (IHv & IHe & IHm)]; [repeat split; intros; lia|].
  repeat split.
  - intros s Hf. simpl. pose proof (skip_ws_le s) as Hs.
    destruct (eat "{" (skip_ws s)) as [rest|] eqn:E1.
    { destruct (eat "}" (skip_ws rest)) as [r0|] eqn:E2; [discriminate|].
      destruct (parse_members fuel rest []) as [ps r0| |] eqn:Hm; try discriminate.
      exfalso. revert Hm. apply IHm. eat_len. lia. }
    destruct (eat "[" (skip_ws s)) as [rest|] eqn:E2.
    { destruct (eat "]" (skip_ws rest)) as [r0|] eqn:E3; [discriminate|].
      destruct (parse_elements fuel rest) as [vs r0| |] eqn:He; try discriminate.
      exfalso. revert He. apply IHe. eat_len. lia. }
    destruct (eat dquote (skip_ws s)) as [rest|] eqn:E3.
    { destruct (parse_chars rest) as [[str r0]|]; discriminate. }
    apply parse_atom_fuel.
  - intros s Hf. simpl.
    destruct (parse_value fuel s) as [v r0| |] eqn:Hv; try discriminate.
    + apply (proj1 (parse_consumes fuel)) in Hv.
      pose proof (skip_ws_le r0) as Hr.
      destruct (eat "," (skip_ws r0)) as [r'|] eqn:E1.
      { destruct (parse_elements fuel r') as [vs' r''| |] eqn:He; try discriminate.
        exfalso. revert He. apply IHe. eat_len. lia. }
      destruct (eat "]" (skip_ws r0)); discriminate.
    + exfalso. revert Hv. apply IHv. lia.
  - intros s acc Hf. simpl. pose proof (skip_ws_le s) as Hs.
    destruct (eat dquote (skip_ws s)) as [rest|] eqn:E1; [|discriminate].
    destruct (parse_chars rest) as [[key r0]|] eqn:Hp; [|discriminate].
    pose proof (skip_ws_le r0) as Hr0.
    destruct (eat ":" (skip_ws r0)) as [r'|] eqn:E2; [|discriminate].
    destruct (parse_value fuel r') as [v r''| |] eqn:Hv; try discriminate.
    + apply (proj1 (parse_consumes fuel)) in Hv.
      pose proof (skip_ws_le r'') as Hr''.
      destruct (eat "," (skip_ws r'')) as [r3|] eqn:E3.
      { apply IHm. eat_len. lia. }
      destruct (eat "}" (skip_ws r'')); discriminate.
    + exfalso. revert Hv. apply IHv. eat_len. lia.
Qed.

(** [JSON.parse] always answers: the fuel of [parse] never runs out. *)
Lemma parse_total text : parse_with (fuel_for text) text = Some (parse text).
Proof.
  unfold parse, parse_with.
  destruct (parse_value (fuel_for text) text) as [v r| |] eqn:Hv; try reflexivity.
  - destruct (skip_ws r); reflexivity.
  - exfalso. revert Hv. apply (proj1 (parse_fuel (fuel_for text))).
    unfold fuel_for. lia.
Qed.
End JSONFacts.

(** * Facts about objects *)


Lemma get_own_set_own_ne k k' v props :
  k <> k' -> get_own k (set_own k' v props) = get_own k props.
Proof.
  intros Hne. apply String.eqb_neq in Hne.
  induction props as [|[k0 v0] rest IH]; simpl.
  - rewrite Hne. reflexivity.
  - destruct (String.eqb k' k0) eqn:E; simpl.
    + destruct (String.eqb k k0) eqn:E0; [|reflexivity].
      apply String.eqb_eq in E, E0. subst. rewrite String.eqb_refl in Hne.
      discriminate.
    + destruct (String.eqb k k0); [reflexivity|exact IH].
Qed.


Lemma or_default_falsy a d : truthy_str a = false -> or_default a d = d.
Proof.
  destruct a as [s|]; simpl; [|reflexivity].
  destruct (String.eqb s EmptyString); [reflexivity|discriminate].
Qed.

Lemma or_default_truthy s d : s <> EmptyString -> or_default (Some s) d = s.
Proof. intros H. simpl. apply String.eqb_neq in H. rewrite H. reflexivity. Qed.

(** * The structured plan synthesizer *)

Lemma EMPTY_MEAL_PLAN_parses : JSON.parse EMPTY_MEAL_PLAN = Return CANONICAL_EMPTY.
Proof. vm_compute. reflexivity. Qed.

(** A text that is not empty and does not parse makes both plan functions
    raise what [JSON.parse] raises. *)
Lemma plan_functions_propagate_parse_error ai profile lang response t e :
  text response = Some t -> t <> EmptyString -> JSON.parse t = Throw e ->
  (generateContent ai
     {| model := "gemini-3-flash-preview";
        contents := MealPlanPrompt profile (goal_text (goal profile))
                      (getLanguageName lang) |} = Return response ->
   getMealPlan ai profile lang = Throw e) /\
  (generateContent ai
     {| model := "gemini-3-flash-preview";
        contents := WorkoutPlanPrompt profile (experienceLevel profile)
                      (goal_text (goal profile)) (getLanguageName lang) |}
     = Return response ->
   getWorkoutPlan ai profile lang = Throw e).
Proof.
  intros Ht Hne Hp. unfold getMealPlan, getWorkoutPlan.
  split; intros ->; rewrite Ht, (or_default_truthy _ _ Hne); exact Hp.
Qed.

(** C1.  With the backend answering the text [not json], both plan
    functions end in the [SyntaxError] of [JSON.parse]: the fallback literal
    only replaces an empty or absent text, and nothing catches the error
    (unlike in [getGymRecommendations], which answers the same text with the
    empty list). *)
Theorem plan_functions_raise_on_malformed_text (profile : UserProfile) (lang : Language) :
  getMealPlan (answering (text_only "not json")) profile lang = Throw SyntaxError /\
  getWorkoutPlan (answering (text_only "not json")) profile lang = Throw SyntaxError /\
  getGymRecommendations (answering (text_only "not json")) "Almaty" "Muscle Gain" lang None
    = (Return [], [SyntaxError]).
Proof. repeat split. Qed.

(** C3, as stated, fails: a payload with one day and no prep strategy is
    returned as it is. *)
Lemma getMealPlan_returns_partial_plan :
  ~ (forall ai profile lang v,
       getMealPlan ai profile lang = Return v ->
       complete_plan v = true \/ v = CANONICAL_EMPTY).
Proof.
  intros H.
  specialize (H (answering (text_only
                   ("{" +:+ q "days" +:+ ":[{" +:+ q "day" +:+ ":" +:+ q "Monday" +:+ "}]}")))
                someone en _ eq_refl).
  vm_compute in H. destruct H as [H|H]; discriminate.
Qed.

(** C3, amended.  [getMealPlan] answers the canonical empty result when the
    response text is absent or empty, and otherwise hands back whatever the
    text parses to, unchecked. *)
Theorem getMealPlan_returns_payload_unchecked
    (ai : Backend) (profile : UserProfile) (lang : Language) (response : Response) :
  generateContent ai
    {| model := "gemini-3-flash-preview";
       contents := MealPlanPrompt profile (goal_text (goal profile))
                     (getLanguageName lang) |} = Return response ->
  (truthy_str (text response) = false ->
     getMealPlan ai profile lang = Return CANONICAL_EMPTY) /\
  (forall t v, text response = Some t -> t <> EmptyString -> JSON.parse t = Return v ->
     getMealPlan ai profile lang = Return v).
Proof.
  intros Hr. unfold getMealPlan. rewrite Hr. split.
  - intros Hf. rewrite (or_default_falsy _ _ Hf). apply EMPTY_MEAL_PLAN_parses.
  - intros t v Ht Hne Hp. rewrite Ht, (or_default_truthy _ _ Hne). exact Hp.
Qed.

Lemma getMealPlan_returns_payload_unchecked_witness :
  getMealPlan (answering {| candidates := None; text := None |}) someone ru
    = Return CANONICAL_EMPTY /\
  getMealPlan (answering (text_only "[1, 2]")) someone ru
    = Return (VArr [VNum "1"; VNum "2"]).
Proof.
  split.
  - apply (proj1 (getMealPlan_returns_payload_unchecked
                    (answering {| candidates := None; text := None |}) someone ru
                    {| candidates := None; text := None |} eq_refl)).
    reflexivity.
  - apply (proj2 (getMealPlan_returns_payload_unchecked
                    (answering (text_only "[1, 2]")) someone ru (text_only "[1, 2]")
                    eq_refl) "[1, 2]").
    + reflexivity.
    + discriminate.
    + vm_compute. reflexivity.
Defined.

(** * The grounded recommendation resolver *)

Lemma getGymRecommendations_unfold ai location goal lang userCoords r1 r2 :
  generateContent ai (discovery location goal lang userCoords) = Return r1 ->
  generateContent ai (extraction r1) = Return r2 ->
  getGymRecommendations ai location goal lang userCoords =
    match bind (JSON.parse (or_default (text r2) "[]"))
               (array_map (attach_links (groundingLinks_of (chunks_of r1)))) with
    | Return gyms => (Return gyms, [])
    | Throw e => (Return [], [e])
    end.
Proof.
  unfold getGymRecommendations, discovery, extraction. intros -> ->. reflexivity.
Qed.


Lemma attach_links_other links props k :
  k <> "groundingLinks" ->
  get_prop k (attach_links links (VObj props)) = get_prop k (VObj props).
Proof.
  intros Hk. unfold attach_links, get_prop. simpl.
  rewrite (get_own_set_own_ne _ _ _ _ Hk). reflexivity.
Qed.

(** Whatever the two responses are, the venues are the images of the
    elements of some list under [attach_links]. *)
Lemma getGymRecommendations_shape ai location goal lang userCoords gyms log :
  getGymRecommendations ai location goal lang userCoords = (Return gyms, log) ->
  exists r1,
    generateContent ai (discovery location goal lang userCoords) = Return r1 /\
    exists items, gyms = map (attach_links (groundingLinks_of (chunks_of r1))) items.
Proof.
  unfold getGymRecommendations. fold (discovery location goal lang userCoords).
  destruct (generateContent ai (discovery location goal lang userCoords))
    as [r1|e] eqn:H1; [|discriminate].
  fold (extraction r1).
  destruct (generateContent ai (extraction r1)) as [r2|e]; [|discriminate].
  intros H. exists r1. split; [reflexivity|].
  destruct (JSON.parse (or_default (text r2) "[]")) as [v|e]; simpl in H.
  - destruct v; simpl in H; injection H as <- _; try (exists []; reflexivity).
    exists items. reflexivity.
  - injection H as <- _. exists []. reflexivity.
Qed.

(** C2, as stated, fails: a venue the extraction gives no coordinates is
    returned all the same. *)
Lemma venue_without_coordinates_is_returned :
  ~ (forall ai location goal lang userCoords gyms log,
       getGymRecommendations ai location goal lang userCoords = (Return gyms, log) ->
       Forall (fun gym => has_coordinates gym = true) gyms).
Proof.
  intros H.
  specialize (H (answering (text_only
                   ("[{" +:+ q "name" +:+ ":" +:+ q "Iron Temple" +:+ "}]")))
                "Almaty" "Muscle Gain" en None _ _ eq_refl).
  vm_compute in H. inversion H as [|g l Hg _]; subst. discriminate.
Qed.

(** C2, amended.  When the extraction text parses to an array, the function
    returns one venue per element, in order and dropping none, and a venue
    reads [lat] and [lng] exactly as its element of the payload does. *)
Theorem getGymRecommendations_keeps_every_venue
    ai location goal lang userCoords r1 r2 items :
  generateContent ai (discovery location goal lang userCoords) = Return r1 ->
  generateContent ai (extraction r1) = Return r2 ->
  JSON.parse (or_default (text r2) "[]") = Return (VArr items) ->
  exists gyms,
    getGymRecommendations ai location goal lang userCoords = (Return gyms, []) /\
    length gyms = length items /\
    forall i props, nth_error items i = Some (VObj props) ->
      exists gym, nth_error gyms i = Some gym /\
        get_prop "lat" gym = get_prop "lat" (VObj props) /\
        get_prop "lng" gym = get_prop "lng" (VObj props) /\
        has_coordinates gym = has_coordinates (VObj props).
Proof.
  intros H1 H2 Hp.
  rewrite (getGymRecommendations_unfold _ _ _ _ _ _ _ H1 H2), Hp. simpl.
  eexists. split; [reflexivity|]. split; [apply length_map|].
  intros i props Hi.
  eexists. split; [apply map_nth_error, Hi|].
  unfold has_coordinates.
  rewrite !attach_links_other by discriminate. repeat split; reflexivity.
Qed.

Lemma getGymRecommendations_keeps_every_venue_witness :
  exists gyms,
    getGymRecommendations
      (answering (text_only ("[{" +:+ q "name" +:+ ":" +:+ q "Iron Temple" +:+ "}, {"
                             +:+ q "lat" +:+ ":43.2," +:+ q "lng" +:+ ":76.9}]")))
      "Almaty" "Muscle Gain" en None = (Return gyms, []) /\
    length gyms = length [VObj [("name", VStr "Iron Temple")];
                          VObj [("lat", VNum "43.2"); ("lng", VNum "76.9")]] /\
    forall i props,
      nth_error [VObj [("name", VStr "Iron Temple")];
                 VObj [("lat", VNum "43.2"); ("lng", VNum "76.9")]] i
        = Some (VObj props) ->
      exists gym, nth_error gyms i = Some gym /\
        get_prop "lat" gym = get_prop "lat" (VObj props) /\
        get_prop "lng" gym = get_prop "lng" (VObj props) /\
        has_coordinates gym = has_coordinates (VObj props).
Proof.
  apply (getGymRecommendations_keeps_every_venue
           (answering (text_only ("[{" +:+ q "name" +:+ ":" +:+ q "Iron Temple" +:+ "}, {"
                                  +:+ q "lat" +:+ ":43.2," +:+ q "lng" +:+ ":76.9}]")))
           "Almaty" "Muscle Gain" en None _ _
           [VObj [("name", VStr "Iron Temple")];
            VObj [("lat", VNum "43.2"); ("lng", VNum "76.9")]] eq_refl eq_refl).
  vm_compute. reflexivity.
Defined.

(** Without any citation the venues are still all returned, each with an
    empty [groundingLinks]. *)
Example venues_without_citations :
  getGymRecommendations
    (answering (text_only ("[{" +:+ q "lat" +:+ ":1," +:+ q "lng" +:+ ":2},{"
                           +:+ q "lat" +:+ ":3," +:+ q "lng" +:+ ":4},{"
                           +:+ q "lat" +:+ ":5," +:+ q "lng" +:+ ":6}]")))
    "Almaty" "Maintenance" ru None
  = (Return [VObj [("lat", VNum "1"); ("lng", VNum "2"); ("groundingLinks", VArr [])];
             VObj [("lat", VNum "3"); ("lng", VNum "4"); ("groundingLinks", VArr [])];
             VObj [("lat", VNum "5"); ("lng", VNum "6"); ("groundingLinks", VArr [])]],
     []).
Proof. vm_compute. reflexivity. Qed.

(** What passes the filter is what [remains] describes. *)
Lemma filter_remains {A : Type} (keep : A -> bool) (l : list A) :
  remains keep l (List.filter keep l).
Proof.
  split; [|split].
  - induction l as [|x l IH]; simpl; [constructor|].
    destruct (keep x); [apply sublist_skip|apply sublist_cons]; exact IH.
  - apply List.Forall_forall. intros x Hx. apply filter_In in Hx. tauto.
  - intros other Hsub. induction Hsub as [|x l1 l2 Hsub IH|x l1 l2 Hsub IH];
      intros Hall; simpl.
    + apply sublist_nil_l.
    + inversion Hall as [|? ? Hx Hrest]; subst. rewrite Hx.
      apply sublist_skip, IH, Hrest.
    + destruct (keep x); [apply sublist_cons|]; apply IH, Hall.
Qed.

(** [remains] describes one list only. *)
Lemma remains_unique {A : Type} (keep : A -> bool) (l k1 k2 : list A) :
  remains keep l k1 -> remains keep l k2 -> k1 = k2.
Proof.
  intros (S1 & F1 & M1) (S2 & F2 & M2).
  apply (anti_symm sublist); [apply M2|apply M1]; assumption.
Qed.






(** The same run, computed: the citation without a uri is left out, the
    fourth and fifth are beyond the first three, and both venues carry the
    three links. *)
Example groundingLinks_of_five_citations :
  let on_map := {| maps := Some {| uri := Some "https://maps.example/1";
                                   title := Some "Iron Temple" |};
                   web := None |} in
  let bare := {| maps := Some {| uri := None; title := Some "No link" |};
                 web := Some {| uri := Some EmptyString; title := None |} |} in
  let on_web := {| maps := None;
                   web := Some {| uri := Some "https://gym.example"; title := None |} |} in
  let links := VArr [VObj [("uri", VStr "https://maps.example/1");
                           ("title", VStr "Iron Temple")];
                     VObj [("uri", VStr "https://gym.example");
                           ("title", VStr "View Source")];
                     VObj [("uri", VStr "https://maps.example/1");
                           ("title", VStr "Iron Temple")]] in
  getGymRecommendations
    (answering (candidate_with [] [on_map; bare; on_web; on_map; on_web]
                  (Some ("[{" +:+ q "name" +:+ ":" +:+ q "A" +:+ "},{"
                         +:+ q "groundingLinks" +:+ ":7}]"))))
    "Almaty" "Muscle Gain" es None
  = (Return [VObj [("name", VStr "A"); ("groundingLinks", links)];
             VObj [("groundingLinks", links)]], []).
Proof. vm_compute. reflexivity. Qed.

(** * Image synthesis and edit *)

Lemma find_inline_part_none ps :
  Forall (fun p => inlineData p = None) ps ->
  List.find (fun p => match inlineData p with Some _ => true | None => false end) ps
    = None.
Proof.
  induction 1 as [|p ps Hp _ IH]; simpl; [reflexivity|].
  rewrite Hp. exact IH.
Qed.

(** When the first candidate of the response does carry a parts list and no
    part of it has an inline payload, the two functions fall back as the
    source says: the empty locator, and the locator given. *)
Lemma image_fallbacks ai mealName base64Image prompt ps chunks t :
  (forall request, generateContent ai request = Return (candidate_with ps chunks t)) ->
  Forall (fun p => inlineData p = None) ps ->
  generateMealImage ai mealName = Return EmptyString /\
  editMealImage ai base64Image prompt = Return base64Image.
Proof.
  intros Hai Hps. unfold generateMealImage, editMealImage. rewrite !Hai.
  unfold find_inline_part. simpl. rewrite (find_inline_part_none _ Hps). simpl.
  split; reflexivity.
Qed.

(** C9.  A response without any candidate has no inline payload either, yet
    both functions raise a [TypeError] on it: [response.candidates[0].content]
    is read without the guards that [getGymRecommendations] puts on the same
    path. *)
Theorem image_functions_raise_without_candidates (mealName base64Image prompt : string) :
  generateMealImage (answering no_candidates) mealName = Throw TypeError /\
  editMealImage (answering no_candidates) base64Image prompt = Throw TypeError /\
  chunks_of no_candidates = [].
Proof. repeat split. Qed.

(** * The long-running media operation *)

Lemma poll_reaches_done ai n : forall fuel k operation progress final,
  polled_from ai k operation n = Some final ->
  is_done final = true ->
  n <= fuel ->
  poll ai fuel k operation progress
    = Some (Return final, progress ++ narration k n).
Proof.
  induction n as [|n IH]; intros fuel k operation progress final Hp Hd Hf.
  - injection Hp as ->. unfold narration. simpl. rewrite app_nil_r.
    destruct fuel; simpl; rewrite Hd; reflexivity.
  - simpl in Hp. destruct (is_done operation) eqn:Ho; [discriminate|].
    destruct fuel as [|fuel]; [lia|]. simpl. rewrite Ho.
    destruct (getVideosOperation ai (S k) operation) as [operation'|e];
      [|discriminate].
    rewrite (IH fuel (S k) operation' _ final Hp Hd) by lia.
    unfold narration. simpl. rewrite <- app_assoc. reflexivity.
Qed.

Lemma poll_done_inv ai fuel : forall k operation progress final progress',
  poll ai fuel k operation progress = Some (Return final, progress') ->
  exists n, n <= fuel /\ polled_from ai k operation n = Some final /\
            is_done final = true.
Proof.
  induction fuel as [|fuel IH]; intros k operation progress final progress' H;
    simpl in H; destruct (is_done operation) eqn:Ho; try discriminate.
  - injection H as <- _. exists 0. repeat split; [lia|exact Ho].
  - injection H as <- _. exists 0. repeat split; [lia|exact Ho].
  - destruct (getVideosOperation ai (S k) operation) as [operation'|e] eqn:Hg;
      [|discriminate].
    destruct (IH _ _ _ _ _ H) as (n & Hn & Hp & Hd).
    exists (S n). split; [lia|]. split; [|exact Hd].
    simpl. rewrite Ho, Hg. exact Hp.
Qed.

Lemma narrate_late k : 14 < k -> narrate k = [].
Proof.
  intros Hk. do 15 (destruct k as [|k]; [lia|]). reflexivity.
Qed.

Lemma narration_late n m : 14 <= n -> narration n m = [].
Proof.
  revert n. unfold narration.
  induction m as [|m IH]; intros n Hn; simpl; [reflexivity|].
  rewrite narrate_late by lia. simpl. apply IH. lia.
Qed.

Lemma narration_saturates n : 14 <= n -> narration 0 n = narration 0 14.
Proof.
  intros Hn. unfold narration.
  replace n with (14 + (n - 14)) by lia.
  rewrite seq_app, flat_map_app.
  change (flat_map narrate (seq (1 + 14) (n - 14))) with (narration 14 (n - 14)).
  rewrite narration_late by lia. apply app_nil_r.
Qed.

Lemma early_progress_in_order m : m <= 14 ->
  narrated_in_order
    (["Initializing Bio-Visual Simulation..."; "Accessing Neural Compute Pipeline..."]
     ++ narration 0 m ++ ["Simulation Complete. Finalizing Stream."]).
Proof.
  intros Hm.
  assert (Hcases : In m (seq 0 15)) by (apply in_seq; lia).
  unfold narrated_in_order. simpl in Hcases.
  repeat (destruct Hcases as [<-|Hcases];
          [split; [|split];
           [cbv; repeat (constructor; try lia)
           |repeat (constructor; [cbv; tauto|]); constructor
           |reflexivity]|]).
  destruct Hcases.
Qed.

Lemma full_progress_in_order n :
  narrated_in_order
    (["Initializing Bio-Visual Simulation..."; "Accessing Neural Compute Pipeline..."]
     ++ narration 0 n ++ ["Simulation Complete. Finalizing Stream."]).
Proof.
  destruct (le_lt_dec 14 n) as [Hn|Hn].
  - rewrite (narration_saturates n Hn). apply early_progress_in_order. lia.
  - apply early_progress_in_order. lia.
Qed.

Lemma getExerciseVideo_completes ai API_KEY exerciseName n final fuel :
  polled ai exerciseName n = Some final ->
  is_done final = true ->
  n <= fuel ->
  getExerciseVideo ai API_KEY exerciseName fuel =
    Some (Return (template (downloadLink final) +:+ "&key=" +:+ template API_KEY),
          ["Initializing Bio-Visual Simulation...";
           "Accessing Neural Compute Pipeline..."]
          ++ narration 0 n ++ ["Simulation Complete. Finalizing Stream."]).
Proof.
  unfold polled, getExerciseVideo. intros Hp Hd Hf.
  destruct (generateVideos ai exerciseName) as [operation|e]; [|discriminate].
  rewrite (poll_reaches_done ai n fuel 0 operation _ final Hp Hd Hf).
  rewrite <- app_assoc. reflexivity.
Qed.

(** Every run that returns a locator is the run of a backend that completed
    at some poll. *)
Lemma getExerciseVideo_returned_inv ai API_KEY exerciseName fuel url progress :
  getExerciseVideo ai API_KEY exerciseName fuel = Some (Return url, progress) ->
  exists n final, n <= fuel /\ polled ai exerciseName n = Some final /\
                  is_done final = true.
Proof.
  unfold getExerciseVideo, polled.
  destruct (generateVideos ai exerciseName) as [operation|e]; [|discriminate].
  destruct (poll ai fuel 0 operation _) as [[[final|e] progress']|] eqn:Hp;
    try discriminate.
  intros _. destruct (poll_done_inv _ _ _ _ _ _ _ Hp) as (n & Hn & Hq & Hd).
  exists n, final. repeat split; assumption.
Qed.

(** C7.  When the backend reports completion at its [n]-th poll, the call
    returns (given [n] polls of fuel), and what [onProgress] received by
    then has strictly increasing milestone indices and ends with the
    completion message. *)
Theorem progress_is_strictly_increasing ai API_KEY exerciseName n final fuel :
  polled ai exerciseName n = Some final ->
  is_done final = true ->
  n <= fuel ->
  exists url progress,
    getExerciseVideo ai API_KEY exerciseName fuel = Some (Return url, progress) /\
    StronglySorted lt (map milestone_index progress) /\
    List.Forall (fun msg => In msg MILESTONES) progress /\
    List.last progress EmptyString = "Simulation Complete. Finalizing Stream.".
Proof.
  intros Hp Hd Hf. eexists. eexists.
  split; [exact (getExerciseVideo_completes _ API_KEY _ _ _ _ Hp Hd Hf)|].
  apply full_progress_in_order.
Qed.

Lemma progress_is_strictly_increasing_witness :
  exists url progress,
    getExerciseVideo (done_after 5 None) (Some "K") "Squat" 9
      = Some (Return url, progress) /\
    StronglySorted lt (map milestone_index progress) /\
    List.Forall (fun msg => In msg MILESTONES) progress /\
    List.last progress EmptyString = "Simulation Complete. Finalizing Stream.".
Proof.
  apply (progress_is_strictly_increasing (done_after 5 None) (Some "K") "Squat" 5
           {| done := Some true; response := None |} 9).
  - reflexivity.
  - reflexivity.
  - lia.
Defined.

Lemma append_not_empty a b : b <> EmptyString -> a +:+ b <> EmptyString.
Proof. intros Hb. destruct a; simpl; [exact Hb|discriminate]. Qed.

(** C10.  When the backend reports completion at its [n]-th poll, the call
    returns, and the locator is the uri of the first generated video of the
    operation's response, followed by [&key=] and the API key.  When the
    response, its list of videos, the first video or its uri is missing, the
    text [undefined] stands for the uri.  The locator is never empty. *)
Theorem video_locator_carries_key ai API_KEY exerciseName n final fuel :
  polled ai exerciseName n = Some final ->
  is_done final = true ->
  n <= fuel ->
  exists url progress,
    getExerciseVideo ai API_KEY exerciseName fuel = Some (Return url, progress) /\
    (forall r g rest v link,
       response final = Some r -> generatedVideos r = Some (g :: rest) ->
       video g = Some v -> video_uri v = Some link ->
       (forall key, API_KEY = Some key -> url = link +:+ "&key=" +:+ key) /\
       (API_KEY = None -> url = link +:+ "&key=undefined")) /\
    (response final = None \/
     (exists r, response final = Some r /\
        (generatedVideos r = None \/ generatedVideos r = Some [] \/
         exists g rest, generatedVideos r = Some (g :: rest) /\
           (video g = None \/ exists v, video g = Some v /\ video_uri v = None))) ->
     (forall key, API_KEY = Some key -> url = "undefined&key=" +:+ key) /\
     (API_KEY = None -> url = "undefined&key=undefined")) /\
    url <> EmptyString.
Proof.
  intros Hp Hd Hf. eexists. eexists.
  split; [exact (getExerciseVideo_completes _ API_KEY _ _ _ _ Hp Hd Hf)|].
  split; [|split].
  - intros r g rest v link Hr Hg Hv Hu. unfold downloadLink.
    rewrite Hr, Hg, Hv, Hu. split; [intros key ->|intros ->]; reflexivity.
  - intros Hmissing.
    assert (Hnone : downloadLink final = None).
    { unfold downloadLink.
      destruct Hmissing as [->|(r & -> & [->|[->|(g & rest & -> & [->|(v & -> & ->)])]])];
        reflexivity. }
    rewrite Hnone. split; [intros key ->|intros ->]; reflexivity.
  - apply append_not_empty. discriminate.
Qed.

Lemma video_locator_carries_key_witness :
  let result :=
    {| generatedVideos :=
         Some [{| video := Some {| video_uri := Some "https://videos.example/v1" |} |};
               {| video := Some {| video_uri := Some "https://videos.example/v2" |} |}] |} in
  exists url progress,
    getExerciseVideo (done_after 3 (Some result)) (Some "SECRET") "Deadlift" 3
      = Some (Return url, progress) /\
    url = "https://videos.example/v1&key=SECRET" /\
    url <> EmptyString.
Proof.
  intros result.
  destruct (video_locator_carries_key (done_after 3 (Some result))
              (Some "SECRET") "Deadlift" 3
              {| done := Some true; response := Some result |}
              3 eq_refl eq_refl (le_n 3))
    as (url & progress & Hrun & Huri & _ & Hne).
  exists url, progress. split; [exact Hrun|]. split; [|exact Hne].
  exact (proj1 (Huri result _ _ _ "https://videos.example/v1"
                  eq_refl eq_refl eq_refl eq_refl) "SECRET" eq_refl).
Defined.

(** A completed operation without any video: [undefined] stands for the
    uri. *)
Example video_locator_without_uri :
  getExerciseVideo (done_after 3 (Some {| generatedVideos := Some [] |}))
    (Some "SECRET") "Deadlift" 3
  = Some (Return "undefined&key=SECRET",
          ["Initializing Bio-Visual Simulation...";
           "Accessing Neural Compute Pipeline...";
           "Synthesizing Movement Dynamics...";
           "Simulation Complete. Finalizing Stream."]).
Proof. vm_compute. reflexivity. Qed.

(** * The session caches *)

Section PlainObjects.

Lemma assign_miss {A : Type} key (v : A) own :
  own !! key = None -> inherited key = false -> assign key v own = <[key := v]> own.
Proof.
  intros Hnone Hk. unfold assign. rewrite Hnone.
  destruct (String.eqb key "__proto__") eqn:E; [|reflexivity].
  apply String.eqb_eq in E. subst. discriminate.
Qed.

Lemma assign_lookup_ne {A : Type} key other (v : A) own :
  other <> key -> assign key v own !! other = own !! other.
Proof.
  intros Hne. unfold assign.
  destruct (own !! key); [|destruct (String.eqb key "__proto__"); [reflexivity|]];
    apply lookup_insert_ne; congruence.
Qed.

(** A key that reads falsy takes the write. *)
Lemma assign_falsy key v own :
  truthy_reading (read own key) = false -> assign key v own !! key = Some v.
Proof.
  unfold read, assign. destruct (own !! key) as [s|].
  - intros _. apply lookup_insert_eq.
  - destruct (inherited key) eqn:Hk; [discriminate|]. intros _.
    destruct (String.eqb key "__proto__") eqn:E.
    + apply String.eqb_eq in E. subst. discriminate.
    + apply lookup_insert_eq.
Qed.

Lemma assign_assign {A : Type} key (v v' : A) own :
  assign key v' (assign key v own) = assign key v' own.
Proof.
  unfold assign at 2 3. destruct (own !! key) as [a|] eqn:Hk.
  - unfold assign. rewrite lookup_insert_eq. apply insert_insert_eq.
  - destruct (String.eqb key "__proto__") eqn:E.
    + unfold assign. rewrite Hk, E. reflexivity.
    + unfold assign. rewrite lookup_insert_eq. apply insert_insert_eq.
Qed.

Lemma assign_swap {A : Type} key key' (v v' : A) own :
  key <> key' ->
  assign key v (assign key' v' own) = assign key' v' (assign key v own).
Proof.
  intros Hne. unfold assign at 1 3.
  rewrite !assign_lookup_ne by congruence.
  unfold assign.
  destruct (own !! key), (own !! key'),
    (String.eqb key "__proto__"), (String.eqb key' "__proto__");
    try reflexivity; apply insert_insert_ne; congruence.
Qed.

Lemma read_own {A : Type} key (v : A) own : own !! key = Some v -> read own key = Own v.
Proof. unfold read. intros ->. reflexivity. Qed.

End PlainObjects.

(** Unfolds the renders of a run and computes them, given that [H] tells a
    locator from the empty string. *)
Ltac renders H :=
  repeat (progress (unfold MealPlanner.commit, MealPlanner.render,
                      MealPlanner.fetch_effect, MealPlanner.cleanup,
                      MealPlanner.settle, MealPlanner.with_state,
                      MealPlanner.with_calls;
                    cbn; rewrite ?String.eqb_refl, ?H)).

Section ImageCache.
Import MealPlanner.

Lemma or_null_miss cached : truthy_reading cached = false -> or_null None cached = Null.
Proof.
  destruct cached as [s| |]; simpl; [|discriminate|reflexivity].
  intros H. apply negb_false_iff in H. rewrite H. reflexivity.
Qed.

Lemma or_null_hit url : url <> EmptyString -> or_null None (Own url) = Str url.
Proof. intros H. simpl. apply String.eqb_neq in H. rewrite H. reflexivity. Qed.

Lemma mount_miss key st :
  truthy_reading (read (SESSION_IMAGE_CACHE st) key) = false ->
  mount key None st =
  {| mealName := key; existingUrl := None; image := Null; loading := true;
     isVisible := false; seen_image := Null; seen_visible := false; calls := [] |}.
Proof. intros H. unfold mount. rewrite (or_null_miss _ H), H. reflexivity. Qed.

Lemma mount_hit key st url :
  SESSION_IMAGE_CACHE st !! key = Some url -> url <> EmptyString ->
  mount key None st =
  {| mealName := key; existingUrl := None; image := Str url; loading := false;
     isVisible := false; seen_image := Str url; seen_visible := false; calls := [] |}.
Proof.
  intros H Hne. unfold mount. rewrite (read_own _ _ _ H), (or_null_hit _ Hne).
  apply String.eqb_neq in Hne. simpl. rewrite Hne. reflexivity.
Qed.

(** A look-up that misses generates, stores and shows the locator. *)
Lemma lookup_miss ai key st url :
  truthy_reading (read (SESSION_IMAGE_CACHE st) key) = false ->
  generateMealImage ai key = Return url ->
  url <> EmptyString ->
  image (fst (lookup ai key st)) = Str url /\
  calls (fst (lookup ai key st)) = [] /\
  generated (snd (lookup ai key st)) = generated st ++ [key] /\
  SESSION_IMAGE_CACHE (snd (lookup ai key st)) !! key = Some url.
Proof.
  intros Hmiss Hgen Hne. unfold lookup, run, screen. simpl.
  rewrite (mount_miss _ _ Hmiss), Hgen. apply String.eqb_neq in Hne.
  renders Hne. repeat split. rewrite assign_assign. apply assign_falsy, Hmiss.
Qed.

(** A look-up that hits shows the cached locator and generates nothing. *)
Lemma lookup_hit ai key st url :
  SESSION_IMAGE_CACHE st !! key = Some url -> url <> EmptyString ->
  image (fst (lookup ai key st)) = Str url /\
  calls (fst (lookup ai key st)) = [] /\
  snd (lookup ai key st) = st.
Proof.
  intros Hhit Hne. unfold lookup, run, screen. simpl.
  rewrite (mount_hit _ _ _ Hhit Hne). apply String.eqb_neq in Hne.
  unfold intersect. renders Hne. repeat split.
Qed.

(** What a look-up leaves in the cache. *)
Lemma lookup_cache ai key st :
  SESSION_IMAGE_CACHE (snd (lookup ai key st)) =
  if truthy_reading (read (SESSION_IMAGE_CACHE st) key) then SESSION_IMAGE_CACHE st
  else match generateMealImage ai key with
       | Return url => assign key url (SESSION_IMAGE_CACHE st)
       | Throw _ => SESSION_IMAGE_CACHE st
       end.
Proof.
  destruct (truthy_reading (read (SESSION_IMAGE_CACHE st) key)) eqn:Hr.
  - unfold lookup, run, screen. simpl. unfold mount.
    destruct (read (SESSION_IMAGE_CACHE st) key) as [s| |]; try discriminate.
    + simpl in Hr. apply negb_true_iff in Hr. simpl. rewrite Hr.
      unfold intersect. renders Hr. reflexivity.
    + simpl. unfold intersect. renders Hr. reflexivity.
  - unfold lookup, run, screen. simpl. rewrite (mount_miss _ _ Hr).
    destruct (generateMealImage ai key) as [url|e].
    + destruct (String.eqb url EmptyString) eqn:Hu.
      * apply String.eqb_eq in Hu. subst url. renders Hr. apply assign_assign.
      * renders Hu. apply assign_assign.
    + renders Hr. reflexivity.
Qed.

End ImageCache.

Section VideoCache.
Import WorkoutPlanner.

Lemma getExerciseVideo_nonempty ai API_KEY exerciseName fuel url progress :
  getExerciseVideo ai API_KEY exerciseName fuel = Some (Return url, progress) ->
  url <> EmptyString.
Proof.
  unfold getExerciseVideo.
  destruct (generateVideos ai exerciseName) as [operation|e]; [|discriminate].
  destruct (poll ai fuel 0 operation _) as [[[final|e] progress']|]; try discriminate.
  intros [= <- _]. apply append_not_empty. discriminate.
Qed.

Lemma handleOpenDemo_miss ai API_KEY fuel exercise lab url progress :
  truthy_reading (read (VIDEO_CACHE lab) exercise) = false ->
  getExerciseVideo ai API_KEY exercise fuel = Some (Return url, progress) ->
  exists lab', handleOpenDemo ai API_KEY fuel exercise lab = Some lab' /\
    VIDEO_CACHE lab' !! exercise = Some url /\
    currentVideoUrl lab' = Str url /\
    requested lab' = requested lab ++ [exercise].
Proof.
  intros Hmiss Hrun. unfold handleOpenDemo. rewrite Hmiss, Hrun.
  eexists. split; [reflexivity|]. simpl. repeat split.
  apply assign_falsy, Hmiss.
Qed.

Lemma handleOpenDemo_hit ai API_KEY fuel exercise lab url :
  VIDEO_CACHE lab !! exercise = Some url -> url <> EmptyString ->
  exists lab', handleOpenDemo ai API_KEY fuel exercise lab = Some lab' /\
    VIDEO_CACHE lab' = VIDEO_CACHE lab /\
    currentVideoUrl lab' = Str url /\
    requested lab' = requested lab.
Proof.
  intros Hhit Hne. unfold handleOpenDemo. rewrite (read_own _ _ _ Hhit).
  apply String.eqb_neq in Hne. simpl. rewrite Hne. simpl.
  eexists. split; [reflexivity|]. repeat split.
Qed.

End VideoCache.

(** C5, as stated, fails on both caches.  A key that names something every
    object inherits, as [constructor] does, is found in the empty cache, so
    that two look-ups never call the factory; and a generation that raises
    stores nothing, so that the second look-up calls the factory again. *)
Lemma lookups_not_one_generation :
  (let first := MealPlanner.lookup (answering (candidate_with [png "AAAA"] [] None))
                  "constructor" MealPlanner.fresh in
   let second := MealPlanner.lookup (answering (candidate_with [png "AAAA"] [] None))
                   "constructor" (snd first) in
   MealPlanner.generated (snd second) = [] /\
   MealPlanner.image (fst second) = Builtin) /\
  (exists first second,
     WorkoutPlanner.handleOpenDemo (done_after 1 None) (Some "K") 5 "constructor"
       WorkoutPlanner.fresh = Some first /\
     WorkoutPlanner.handleOpenDemo (done_after 1 None) (Some "K") 5 "constructor" first
       = Some second /\
     WorkoutPlanner.requested second = [] /\
     WorkoutPlanner.currentVideoUrl second = Builtin) /\
  (exists first second,
     WorkoutPlanner.handleOpenDemo (failing_at 2) (Some "K") 5 "Squat"
       WorkoutPlanner.fresh = Some first /\
     WorkoutPlanner.handleOpenDemo (failing_at 2) (Some "K") 5 "Squat" first
       = Some second /\
     WorkoutPlanner.requested second = ["Squat"; "Squat"] /\
     WorkoutPlanner.currentVideoUrl second = Null).
Proof.
  split; [|split].
  - vm_compute. split; reflexivity.
  - eexists. eexists. vm_compute. repeat split.
  - eexists. eexists. vm_compute. repeat split.
Qed.

(** C5, amended.  For a key that reads as a miss (no locator stored under
    it, and not a name that every object inherits): when the generation of
    the first look-up succeeds with a non-empty locator, the second look-up
    generates nothing and gives the same locator, whatever the backend would
    answer then, and neither leaves a call awaited.  This holds for the
    image cache, and for the video cache, whose locators are never empty. *)
Theorem second_lookup_reuses_locator :
  (forall ai ai' key st url,
     truthy_reading (read (MealPlanner.SESSION_IMAGE_CACHE st) key) = false ->
     generateMealImage ai key = Return url ->
     url <> EmptyString ->
     let first := MealPlanner.lookup ai key st in
     let second := MealPlanner.lookup ai' key (snd first) in
     MealPlanner.generated (snd second) = MealPlanner.generated st ++ [key] /\
     MealPlanner.image (fst first) = Str url /\
     MealPlanner.image (fst second) = Str url /\
     MealPlanner.calls (fst first) = [] /\
     MealPlanner.calls (fst second) = []) /\
  (forall ai ai' API_KEY fuel fuel' exercise lab url progress,
     truthy_reading (read (WorkoutPlanner.VIDEO_CACHE lab) exercise) = false ->
     getExerciseVideo ai API_KEY exercise fuel = Some (Return url, progress) ->
     exists first second,
       WorkoutPlanner.handleOpenDemo ai API_KEY fuel exercise lab = Some first /\
       WorkoutPlanner.handleOpenDemo ai' API_KEY fuel' exercise first = Some second /\
       WorkoutPlanner.requested second = WorkoutPlanner.requested lab ++ [exercise] /\
       WorkoutPlanner.currentVideoUrl first = Str url /\
       WorkoutPlanner.currentVideoUrl second = Str url).
Proof.
  split.
  - intros ai ai' key st url Hmiss Hgen Hne first second.
    destruct (lookup_miss ai key st url Hmiss Hgen Hne) as (Hi & Hk & Hg & Hc).
    fold first in Hi, Hk, Hg, Hc.
    destruct (lookup_hit ai' key (snd first) url Hc Hne) as (Hi' & Hk' & Hs).
    fold second in Hi', Hk', Hs. rewrite Hs. repeat split; assumption.
  - intros ai ai' API_KEY fuel fuel' exercise lab url progress Hmiss Hrun.
    destruct (handleOpenDemo_miss _ _ _ _ _ _ _ Hmiss Hrun)
      as (first & H1 & Hhit & Hu & Hr).
    destruct (handleOpenDemo_hit ai' API_KEY fuel' exercise first url Hhit
                (getExerciseVideo_nonempty _ _ _ _ _ _ Hrun))
      as (second & H2 & _ & Hu' & Hr').
    exists first, second. rewrite Hr', Hr. repeat split; assumption.
Qed.

Lemma second_lookup_reuses_locator_witness :
  (let first := MealPlanner.lookup (answering (candidate_with [png "AAAA"] [] None))
                  "Grilled Salmon" MealPlanner.fresh in
   let second := MealPlanner.lookup (answering (candidate_with [png "BBBB"] [] None))
                   "Grilled Salmon" (snd first) in
   MealPlanner.generated (snd second) = [] ++ ["Grilled Salmon"] /\
   MealPlanner.image (fst first) = Str "data:image/png;base64,AAAA" /\
   MealPlanner.image (fst second) = Str "data:image/png;base64,AAAA" /\
   MealPlanner.calls (fst first) = [] /\
   MealPlanner.calls (fst second) = []) /\
  (exists first second,
     WorkoutPlanner.handleOpenDemo
       (done_after 2 (Some (one_video "https://videos.example/squat")))
       (Some "K") 2 "Squat" WorkoutPlanner.fresh = Some first /\
     WorkoutPlanner.handleOpenDemo (done_after 0 None) (Some "K") 0 "Squat" first
       = Some second /\
     WorkoutPlanner.requested second = [] ++ ["Squat"] /\
     WorkoutPlanner.currentVideoUrl first = Str "https://videos.example/squat&key=K" /\
     WorkoutPlanner.currentVideoUrl second = Str "https://videos.example/squat&key=K").
Proof.
  split.
  - apply (proj1 second_lookup_reuses_locator
             (answering (candidate_with [png "AAAA"] [] None))
             (answering (candidate_with [png "BBBB"] [] None))
             "Grilled Salmon" MealPlanner.fresh "data:image/png;base64,AAAA").
    + reflexivity.
    + reflexivity.
    + discriminate.
  - apply (proj2 second_lookup_reuses_locator
             (done_after 2 (Some (one_video "https://videos.example/squat")))
             (done_after 0 None) (Some "K") 2 0 "Squat"
             WorkoutPlanner.fresh "https://videos.example/squat&key=K"
             ["Initializing Bio-Visual Simulation...";
              "Accessing Neural Compute Pipeline...";
              "Synthesizing Movement Dynamics...";
              "Simulation Complete. Finalizing Stream."]).
    + reflexivity.
    + reflexivity.
Defined.

Section Overlap.
Import MealPlanner.

(** C4, as stated, fails: two requests for one key that overlap are not
    answered by one generation call.  Each component makes its own, and the
    one still waiting when the first call settles makes one more. *)
Lemma overlapping_requests_generate_again :
  let s := overlapping "Overnight Oats" (Return "data:image/png;base64,AAAA")
             (Return "data:image/png;base64,BBBB")
             (Return "data:image/png;base64,CCCC") oats_twice in
  generated (planner (run [Mount "Overnight Oats" None; Mount "Overnight Oats" None;
                           Intersect 0; Intersect 1] (screen oats_twice)))
    = ["Overnight Oats"; "Overnight Oats"] /\
  generated (planner s) = ["Overnight Oats"; "Overnight Oats"; "Overnight Oats"] /\
  length (generated (planner s)) <> 1.
Proof.
  split; [vm_compute; reflexivity|]. split; [vm_compute; reflexivity|].
  vm_compute. discriminate.
Qed.

(** Both components wait for their own call. *)
Lemma overlapping_started key st :
  truthy_reading (read (SESSION_IMAGE_CACHE st) key) = false ->
  let waiting :=
    {| mealName := key; existingUrl := None; image := Null; loading := true;
       isVisible := true; seen_image := Null; seen_visible := true;
       calls := [true] |} in
  exists p,
    run [Mount key None; Mount key None; Intersect 0; Intersect 1] (screen st)
      = {| planner := p; images := [waiting; waiting] |} /\
    generated p = generated st ++ [key; key] /\
    SESSION_IMAGE_CACHE p = SESSION_IMAGE_CACHE st /\
    plans p = plans st.
Proof.
  intros Hmiss waiting. unfold run, screen. simpl. rewrite (mount_miss _ _ Hmiss).
  renders Hmiss. eexists. split; [reflexivity|]. simpl.
  rewrite <- app_assoc. repeat split.
Qed.

(** The first call settles: its component shows the locator, and the render
    of the planner that follows hands the locator to the other component,
    which has by then cleaned up its call and started, then cleaned up,
    another. *)
Lemma overlapping_first_settled key u1 p :
  u1 <> EmptyString ->
  let waiting :=
    {| mealName := key; existingUrl := None; image := Null; loading := true;
       isVisible := true; seen_image := Null; seen_visible := true;
       calls := [true] |} in
  let showing (calls : list bool) :=
    {| mealName := key; existingUrl := Some u1; image := Str u1; loading := false;
       isVisible := true; seen_image := Str u1; seen_visible := true;
       calls := calls |} in
  exists p',
    step (Settle 0 0 (Return u1)) {| planner := p; images := [waiting; waiting] |}
      = {| planner := p'; images := [showing []; showing [false; false]] |} /\
    generated p' = generated p ++ [key] /\
    SESSION_IMAGE_CACHE p' = assign key u1 (SESSION_IMAGE_CACHE p) /\
    plans p' = map (update_day key u1) (plans p).
Proof.
  intros Hne waiting showing. apply String.eqb_neq in Hne.
  unfold step. cbn. renders Hne. eexists. split; [reflexivity|]. simpl.
  split; [reflexivity|]. split; [apply assign_assign|reflexivity].
Qed.

(** A call that settles after its closure was cleaned up changes neither
    what is shown, nor the cache, nor the plan. *)
Lemma overlapping_late_settled key u1 r p a rest :
  let showing (calls : list bool) :=
    {| mealName := key; existingUrl := Some u1; image := Str u1; loading := false;
       isVisible := true; seen_image := Str u1; seen_visible := true;
       calls := calls |} in
  exists p',
    step (Settle 1 0 r) {| planner := p; images := [a; showing (false :: rest)] |}
      = {| planner := p'; images := [a; showing rest] |} /\
    generated p' = generated p /\
    SESSION_IMAGE_CACHE p' = SESSION_IMAGE_CACHE p /\
    plans p' = plans p.
Proof.
  intros showing. unfold step. cbn.
  destruct r as [u|e]; renders (String.eqb_refl u1);
    eexists; (split; [reflexivity|]); repeat split.
Qed.

(** C4, amended.  Two overlapping requests for a key that reads as a miss
    are not deduplicated: each component has made its own generation call
    before either settles, and when the first call settles with a non-empty
    locator, the render of the planner makes the second component start one
    more.  Both components end up showing the locator of the call that
    settled first, which is also what the cache holds and what the meals of
    that name carry in the plan, and no call is left awaited: whatever the
    later calls answer is discarded. *)
Theorem overlapping_requests_first_wins key u1 r2 r3 st :
  truthy_reading (read (SESSION_IMAGE_CACHE st) key) = false ->
  u1 <> EmptyString ->
  let s := overlapping key (Return u1) r2 r3 st in
  generated (planner (run [Mount key None; Mount key None; Intersect 0; Intersect 1]
                        (screen st)))
    = generated st ++ [key; key] /\
  generated (planner s) = generated st ++ [key; key; key] /\
  (exists a b, images s = [a; b] /\
     image a = Str u1 /\ image b = Str u1 /\ calls a = [] /\ calls b = []) /\
  SESSION_IMAGE_CACHE (planner s) !! key = Some u1 /\
  plans (planner s) = map (update_day key u1) (plans st).
Proof.
  intros Hmiss Hne s.
  destruct (overlapping_started key st Hmiss) as (p0 & H0 & Hg0 & Hc0 & Hp0).
  destruct (overlapping_first_settled key u1 p0 Hne) as (p1 & H1 & Hg1 & Hc1 & Hp1).
  destruct (overlapping_late_settled key u1 r2 p1
              {| mealName := key; existingUrl := Some u1; image := Str u1;
                 loading := false; isVisible := true; seen_image := Str u1;
                 seen_visible := true; calls := [] |} [false])
    as (p2 & H2 & Hg2 & Hc2 & Hp2).
  destruct (overlapping_late_settled key u1 r3 p2
              {| mealName := key; existingUrl := Some u1; image := Str u1;
                 loading := false; isVisible := true; seen_image := Str u1;
                 seen_visible := true; calls := [] |} [])
    as (p3 & H3 & Hg3 & Hc3 & Hp3).
  assert (Hs : s = {| planner := p3;
                      images := [{| mealName := key; existingUrl := Some u1;
                                    image := Str u1; loading := false;
                                    isVisible := true; seen_image := Str u1;
                                    seen_visible := true; calls := [] |};
                                 {| mealName := key; existingUrl := Some u1;
                                    image := Str u1; loading := false;
                                    isVisible := true; seen_image := Str u1;
                                    seen_visible := true; calls := [] |}] |}).
  { unfold s, overlapping.
    change [Mount key None; Mount key None; Intersect 0; Intersect 1;
            Settle 0 0 (Return u1); Settle 1 0 r2; Settle 1 0 r3]
      with ([Mount key None; Mount key None; Intersect 0; Intersect 1]
            ++ [Settle 0 0 (Return u1); Settle 1 0 r2; Settle 1 0 r3]).
    unfold run at 1. rewrite fold_left_app. fold (run [Mount key None; Mount key None;
                                                       Intersect 0; Intersect 1] (screen st)).
    rewrite H0. cbn [fold_left]. rewrite H1, H2, H3. reflexivity. }
  split; [rewrite H0; exact Hg0|]. rewrite Hs. cbn [planner images].
  split; [rewrite Hg3, Hg2, Hg1, Hg0, <- app_assoc; reflexivity|].
  split; [eexists; eexists; repeat split|]. split.
  - rewrite Hc3, Hc2, Hc1, Hc0. apply assign_falsy, Hmiss.
  - rewrite Hp3, Hp2, Hp1, Hp0. reflexivity.
Qed.

Lemma overlapping_requests_first_wins_witness :
  let s := overlapping "Overnight Oats" (Return "data:image/png;base64,AAAA")
             (Return "data:image/png;base64,BBBB") (Throw (BackendError "quota"))
             oats_twice in
  generated (planner (run [Mount "Overnight Oats" None; Mount "Overnight Oats" None;
                           Intersect 0; Intersect 1] (screen oats_twice)))
    = generated oats_twice ++ ["Overnight Oats"; "Overnight Oats"] /\
  generated (planner s)
    = generated oats_twice ++ ["Overnight Oats"; "Overnight Oats"; "Overnight Oats"] /\
  (exists a b, images s = [a; b] /\
     image a = Str "data:image/png;base64,AAAA" /\
     image b = Str "data:image/png;base64,AAAA" /\ calls a = [] /\ calls b = []) /\
  SESSION_IMAGE_CACHE (planner s) !! "Overnight Oats" = Some "data:image/png;base64,AAAA" /\
  plans (planner s)
    = map (update_day "Overnight Oats" "data:image/png;base64,AAAA") (plans oats_twice).
Proof.
  apply (overlapping_requests_first_wins "Overnight Oats" "data:image/png;base64,AAAA"
           (Return "data:image/png;base64,BBBB") (Throw (BackendError "quota"))
           oats_twice).
  - reflexivity.
  - discriminate.
Defined.

End Overlap.

Section Replace.
Import MealPlanner.








End Replace.

(** * Further properties of the service *)

(** X1.  Once both backend calls have answered, [getGymRecommendations]
    returns a list whatever the extraction text is: an unparsable text or a
    value that is not an array gives the empty list with the error on the
    console, an absent text the empty list with nothing logged. *)
Theorem getGymRecommendations_contains_payload_errors
    ai location goal lang userCoords r1 r2 :
  generateContent ai (discovery location goal lang userCoords) = Return r1 ->
  generateContent ai (extraction r1) = Return r2 ->
  exists gyms log,
    getGymRecommendations ai location goal lang userCoords = (Return gyms, log) /\
    (forall e, JSON.parse (or_default (text r2) "[]") = Throw e ->
       gyms = [] /\ log = [e]) /\
    (forall v, JSON.parse (or_default (text r2) "[]") = Return v ->
       (forall items, v <> VArr items) -> gyms = [] /\ log = [TypeError]) /\
    (truthy_str (text r2) = false -> gyms = [] /\ log = []).
Proof.
  intros H1 H2. rewrite (getGymRecommendations_unfold _ _ _ _ _ _ _ H1 H2).
  destruct (truthy_str (text r2)) eqn:Ht.
  - destruct (JSON.parse (or_default (text r2) "[]")) as [v|e] eqn:Hp; simpl.
    + destruct v; simpl;
        try (eexists; eexists; split; [reflexivity|];
             split; [discriminate|]; split; [|discriminate];
             intros v' [= <-] _; split; reflexivity).
      eexists. eexists. split; [reflexivity|].
      split; [discriminate|]. split; [|discriminate].
      intros v' [= <-] Hn. destruct (Hn items eq_refl).
    + eexists. eexists. split; [reflexivity|].
      split; [intros e' [= <-]; split; reflexivity|].
      split; [discriminate|discriminate].
  - rewrite (or_default_falsy _ _ Ht).
    change (JSON.parse "[]") with (@Return value (VArr [])). simpl.
    eexists. eexists. split; [reflexivity|].
    split; [discriminate|]. split; [|split; reflexivity].
    intros v [= <-] Hn. destruct (Hn [] eq_refl).
Qed.

Lemma getGymRecommendations_contains_payload_errors_witness :
  exists gyms log,
    getGymRecommendations (answering (text_only "{}")) "Almaty" "Maintenance" en None
      = (Return gyms, log) /\
    gyms = [] /\ log = [TypeError].
Proof.
  destruct (getGymRecommendations_contains_payload_errors
              (answering (text_only "{}")) "Almaty" "Maintenance" en None
              (text_only "{}") (text_only "{}") eq_refl eq_refl)
    as (gyms & log & Hrun & _ & Hobj & _).
  exists gyms, log. split; [exact Hrun|].
  apply (Hobj (VObj [])); [reflexivity|discriminate].
Defined.

(** X2.  A failure of the backend itself is not contained by the [try] of
    [getGymRecommendations], which only covers the parsing: when the
    discovery request or the extraction request raises, the function raises
    the same error and logs nothing. *)
Theorem getGymRecommendations_backend_failures_escape
    ai location goal lang userCoords e :
  (generateContent ai (discovery location goal lang userCoords) = Throw e ->
   getGymRecommendations ai location goal lang userCoords = (Throw e, [])) /\
  (forall r1,
     generateContent ai (discovery location goal lang userCoords) = Return r1 ->
     generateContent ai (extraction r1) = Throw e ->
     getGymRecommendations ai location goal lang userCoords = (Throw e, [])).
Proof.
  unfold getGymRecommendations. fold (discovery location goal lang userCoords).
  split.
  - intros ->. reflexivity.
  - intros r1 ->. fold (extraction r1). intros ->. reflexivity.
Qed.

Lemma getGymRecommendations_backend_failures_escape_witness :
  getGymRecommendations (extraction_fails (text_only "Iron Temple, Almaty"))
    "Almaty" "Maintenance" en None
  = (Throw (BackendError "overloaded"), []).
Proof.
  apply (proj2 (getGymRecommendations_backend_failures_escape
                  (extraction_fails (text_only "Iron Temple, Almaty"))
                  "Almaty" "Maintenance" en None (BackendError "overloaded"))
               (text_only "Iron Temple, Almaty")).
  - reflexivity.
  - reflexivity.
Defined.

Lemma poll_fails ai n : forall fuel k operation progress last e,
  polled_from ai k operation n = Some last ->
  is_done last = false ->
  getVideosOperation ai (S (k + n)) last = Throw e ->
  n < fuel ->
  poll ai fuel k operation progress
    = Some (Throw e, progress ++ narration k (S n)).
Proof.
  induction n as [|n IH]; intros fuel k operation progress last e Hp Hd He Hf.
  - injection Hp as ->. destruct fuel as [|fuel]; [lia|].
    simpl. rewrite Hd. rewrite Nat.add_0_r in He. rewrite He.
    unfold narration. simpl. rewrite app_nil_r. reflexivity.
  - simpl in Hp. destruct (is_done operation) eqn:Ho; [discriminate|].
    destruct fuel as [|fuel]; [lia|]. simpl. rewrite Ho.
    destruct (getVideosOperation ai (S k) operation) as [operation'|e'];
      [|discriminate].
    replace (S (k + S n)) with (S (S k + n)) in He by lia.
    rewrite (IH fuel (S k) operation' _ last e Hp Hd He) by lia.
    unfold narration. simpl. rewrite <- app_assoc. reflexivity.
Qed.

Lemma StronglySorted_prefix (l1 l2 : list nat) :
  StronglySorted lt (l1 ++ l2) -> StronglySorted lt l1.
Proof.
  induction l1 as [|a l1 IH]; simpl; intros H; [constructor|].
  apply StronglySorted_inv in H. destruct H as [Hs Hf].
  constructor; [exact (IH Hs)|].
  apply List.Forall_app in Hf. exact (proj1 Hf).
Qed.

Lemma narrate_thresholds k msg : In msg (narrate k) <-> In (k, msg) THRESHOLDS.
Proof.
  destruct (le_lt_dec k 14) as [Hk|Hk].
  - assert (Hcases : In k (seq 0 15)) by (apply in_seq; lia).
    simpl in Hcases.
    repeat (destruct Hcases as [<-|Hcases];
            [cbn; intuition (try discriminate; try congruence)|]).
    destruct Hcases.
  - rewrite (narrate_late k Hk). simpl.
    intuition (try match goal with H : (_, _) = (_, _) |- _ =>
                         injection H as <- _; lia end).
Qed.

Lemma narration_thresholds from n msg :
  In msg (narration from n) <->
  exists k, from < k <= from + n /\ In (k, msg) THRESHOLDS.
Proof.
  unfold narration. rewrite in_flat_map. split.
  - intros (k & Hk & Hm). exists k. rewrite in_seq in Hk.
    rewrite <- narrate_thresholds. split; [lia|exact Hm].
  - intros (k & Hk & Hm). exists k. rewrite in_seq, narrate_thresholds.
    split; [lia|exact Hm].
Qed.

(** X3.  When the poll numbered [n + 1] raises, [getExerciseVideo] raises
    the same error; the caller has then been told the two opening messages
    and the milestones up to that poll, in increasing order, and never the
    completion message. *)
Theorem failed_operation_never_completes ai API_KEY exerciseName n e fuel :
  fails_at ai exerciseName n e ->
  n < fuel ->
  exists progress,
    getExerciseVideo ai API_KEY exerciseName fuel = Some (Throw e, progress) /\
    progress = ["Initializing Bio-Visual Simulation...";
                "Accessing Neural Compute Pipeline..."] ++ narration 0 (S n) /\
    StronglySorted lt (map milestone_index progress) /\
    ~ In "Simulation Complete. Finalizing Stream." progress.
Proof.
  unfold fails_at, getExerciseVideo. intros Hfail Hf.
  destruct (generateVideos ai exerciseName) as [operation|e0]; [|contradiction].
  destruct Hfail as (last & Hp & Hd & He).
  rewrite (poll_fails ai n fuel 0 operation _ last e Hp Hd He Hf).
  eexists. split; [reflexivity|]. split; [reflexivity|]. split.
  - pose proof (full_progress_in_order (S n)) as (Hs & _ & _).
    rewrite app_assoc, map_app in Hs. exact (StronglySorted_prefix _ _ Hs).
  - simpl. intros [H|[H|H]]; try discriminate.
    apply narration_thresholds in H. destruct H as (k & _ & Hk).
    simpl in Hk. intuition discriminate.
Qed.

Lemma failed_operation_never_completes_witness :
  exists progress,
    getExerciseVideo (failing_at 5) (Some "K") "Squat" 9
      = Some (Throw (BackendError "quota"), progress) /\
    progress = ["Initializing Bio-Visual Simulation...";
                "Accessing Neural Compute Pipeline..."] ++ narration 0 5 /\
    StronglySorted lt (map milestone_index progress) /\
    ~ In "Simulation Complete. Finalizing Stream." progress.
Proof.
  apply (failed_operation_never_completes (failing_at 5) (Some "K") "Squat" 4
           (BackendError "quota") 9).
  - exists {| done := Some false; response := None |}.
    repeat split.
  - lia.
Defined.

(** X4.  In a run that completes at its [n]-th poll, each of the five
    narrated messages has been notified exactly when [n] has reached the
    poll count the loop ties it to (2, 4, 7, 10 and 14). *)
Theorem milestones_follow_poll_counts ai API_KEY exerciseName n final fuel :
  polled ai exerciseName n = Some final ->
  is_done final = true ->
  n <= fuel ->
  exists url progress,
    getExerciseVideo ai API_KEY exerciseName fuel = Some (Return url, progress) /\
    forall count msg, In (count, msg) THRESHOLDS ->
      (In msg progress <-> count <= n).
Proof.
  intros Hp Hd Hf. eexists. eexists.
  split; [exact (getExerciseVideo_completes _ API_KEY _ _ _ _ Hp Hd Hf)|].
  intros count msg Hin. simpl in Hin.
  destruct Hin as [H|[H|[H|[H|[H|[]]]]]]; injection H as <- <-;
    (split;
     [ simpl; intros [H|[H|H]]; try discriminate;
       apply in_app_iff in H; destruct H as [H|[H|[]]]; try discriminate;
       apply narration_thresholds in H; destruct H as (k & Hk & Hkm);
       simpl in Hkm;
       destruct Hkm as [E|[E|[E|[E|[E|[]]]]]]; inversion E; subst; lia
     | intros Hc; simpl; right; right; apply in_app_iff; left;
       apply narration_thresholds; eexists; split; [|simpl; auto 10]; lia ]).
Qed.

Lemma milestones_follow_poll_counts_witness :
  exists url progress,
    getExerciseVideo (done_after 8 None) None "Plank" 8 = Some (Return url, progress) /\
    forall count msg, In (count, msg) THRESHOLDS ->
      (In msg progress <-> count <= 8).
Proof.
  apply (milestones_follow_poll_counts (done_after 8 None) None "Plank" 8
           {| done := Some true; response := None |} 8).
  - reflexivity.
  - reflexivity.
  - lia.
Defined.

(** * Image locators *)

Lemma find_first_inline pre p blob post :
  Forall (fun x => inlineData x = None) pre ->
  inlineData p = Some blob ->
  List.find (fun x => match inlineData x with Some _ => true | None => false end)
    (pre ++ p :: post) = Some p.
Proof.
  intros Hpre Hp. induction Hpre as [|x pre Hx _ IH]; simpl.
  - rewrite Hp. reflexivity.
  - rewrite Hx. exact IH.
Qed.

(** X5.  Both image functions build their locator from the first part of
    the first candidate that carries inline data: parts without it before
    that one are skipped, and whatever follows is ignored. *)
Theorem image_locator_from_first_inline_part
    ai mealName base64Image prompt response c others ct pre p blob post :
  (forall request, generateContent ai request = Return response) ->
  candidates response = Some (c :: others) ->
  content c = Some ct ->
  parts ct = Some (pre ++ p :: post) ->
  Forall (fun x => inlineData x = None) pre ->
  inlineData p = Some blob ->
  generateMealImage ai mealName = Return (data_url blob) /\
  editMealImage ai base64Image prompt = Return (data_url blob).
Proof.
  intros Hai Hc Hct Hps Hpre Hp.
  unfold generateMealImage, editMealImage. rewrite !Hai.
  unfold find_inline_part. rewrite Hc, Hct, Hps.
  rewrite (find_first_inline _ _ _ _ Hpre Hp). simpl. rewrite Hp.
  split; reflexivity.
Qed.

Lemma image_locator_from_first_inline_part_witness :
  let note := {| inlineData := None; part_text := Some "Here is your image" |} in
  let ai := answering (candidate_with [note; png "AAAA"; png "BBBB"] [] None) in
  generateMealImage ai "Grilled Salmon" = Return "data:image/png;base64,AAAA" /\
  editMealImage ai "data:image/png;base64,ZZZZ" "Add herbs"
    = Return "data:image/png;base64,AAAA".
Proof.
  intros note ai.
  apply (image_locator_from_first_inline_part ai "Grilled Salmon"
           "data:image/png;base64,ZZZZ" "Add herbs"
           (candidate_with [note; png "AAAA"; png "BBBB"] [] None)
           _ [] _ [note] (png "AAAA")
           {| mimeType := Some "image/png"; data := Some "AAAA" |} [png "BBBB"]
           (fun _ => eq_refl) eq_refl eq_refl eq_refl).
  - repeat constructor.
  - reflexivity.
Defined.

Lemma append_cons b s t : String b s +:+ t = String b (s +:+ t).
Proof. reflexivity. Qed.

Lemma append_empty_r s : s +:+ EmptyString = s.
Proof.
  induction s as [|b s IH]; [reflexivity|]. rewrite append_cons, IH. reflexivity.
Qed.

Lemma append_assoc_cons cur a s :
  (cur +:+ String a EmptyString) +:+ s = cur +:+ String a s.
Proof.
  induction cur as [|b cur IH]; [reflexivity|].
  rewrite !append_cons, IH. reflexivity.
Qed.

Section Split.

Variables (c : ascii) (sep' : string).
Let sep := String c sep'.

Lemma prefix_lacks a s : Ascii.eqb c a = false -> String.prefix sep (String a s) = false.
Proof.
  intros H. unfold sep. simpl. destruct (ascii_dec c a) as [->|_]; [|reflexivity].
  rewrite Ascii.eqb_refl in H. discriminate.
Qed.

Lemma prefix_append s t : String.prefix s (s +:+ t) = true.
Proof.
  induction s as [|a s IH]; [destruct t; reflexivity|].
  rewrite append_cons. simpl.
  destruct (ascii_dec a a) as [_|Hn]; [exact IH|destruct (Hn eq_refl)].
Qed.

Lemma split_go_lacks s : forall t cur,
  lacks c s = true ->
  split_go sep (s +:+ t) 0 cur = split_go sep t 0 (cur +:+ s).
Proof.
  induction s as [|a s IH]; intros t cur H.
  - rewrite append_empty_r. reflexivity.
  - simpl in H. apply andb_true_iff in H. destruct H as [Ha Hs].
    apply negb_true_iff in Ha.
    rewrite append_cons.
    change (split_go sep (String a (s +:+ t)) 0 cur)
      with (if String.prefix sep (String a (s +:+ t))
            then cur :: split_go sep (s +:+ t) (String.length sep - 1) EmptyString
            else split_go sep (s +:+ t) 0 (cur +:+ String a EmptyString)).
    rewrite (prefix_lacks a (s +:+ t) Ha).
    rewrite (IH t _ Hs), append_assoc_cons. reflexivity.
Qed.

Lemma split_go_skip s : forall t cur,
  split_go sep (s +:+ t) (String.length s) cur = split_go sep t 0 cur.
Proof.
  induction s as [|a s IH]; intros t cur; [reflexivity|].
  rewrite append_cons. simpl. apply IH.
Qed.

Lemma split_go_separator t cur :
  split_go sep (sep +:+ t) 0 cur = cur :: split_go sep t 0 EmptyString.
Proof.
  pose proof (prefix_append sep t) as Hp. unfold sep in *.
  rewrite append_cons in *.
  change (split_go (String c sep') (String c (sep' +:+ t)) 0 cur)
    with (if String.prefix (String c sep') (String c (sep' +:+ t))
          then cur :: split_go (String c sep') (sep' +:+ t)
                        (String.length (String c sep') - 1) EmptyString
          else split_go (String c sep') (sep' +:+ t) 0 (cur +:+ String c EmptyString)).
  rewrite Hp.
  change (String.length (String c sep') - 1) with (String.length sep' - 0).
  rewrite Nat.sub_0_r, (split_go_skip sep' t). reflexivity.
Qed.

Lemma split_go_end s cur :
  lacks c s = true -> split_go sep s 0 cur = [cur +:+ s].
Proof.
  intros H. pose proof (split_go_lacks s EmptyString cur H) as E.
  rewrite append_empty_r in E. exact E.
Qed.

(** Splitting [s sep t] where the first character of [sep] occurs neither
    in [s] nor in [t]. *)
Lemma split_two s t :
  lacks c s = true -> lacks c t = true ->
  split sep (s +:+ sep +:+ t) = [s; t].
Proof.
  intros Hs Ht. unfold split.
  rewrite (split_go_lacks s _ _ Hs).
  change (EmptyString +:+ s) with s.
  rewrite split_go_separator, (split_go_end t _ Ht). reflexivity.
Qed.

End Split.

(** X6.  A locator made by [generateMealImage] is taken apart again by
    [editMealImage]: when the media type has no [;] or [:] and the payload
    no [;], the edit request carries exactly that payload and media type. *)
Theorem edit_request_round_trip ai mime payload prompt :
  lacks ";" mime = true -> lacks ":" mime = true -> lacks ";" payload = true ->
  editMealImage ai (data_url {| mimeType := Some mime; data := Some payload |}) prompt
  = match generateContent ai
            {| model := "gemini-2.5-flash-image";
               contents := EditPrompt (Some payload) (Some mime) prompt |} with
    | Throw e => Throw e
    | Return response =>
        match find_inline_part response with
        | Throw e => Throw e
        | Return part =>
            match inline_of part with
            | Some blob => Return (data_url blob)
            | None =>
                Return (data_url {| mimeType := Some mime; data := Some payload |})
            end
        end
    end.
Proof.
  intros Hm1 Hm2 Hp. unfold editMealImage, data_url. simpl template.
  assert (H1 : split ";base64," ("data:" +:+ mime +:+ ";base64," +:+ payload)
               = ["data:" +:+ mime; payload]).
  { change ("data:" +:+ mime +:+ ";base64," +:+ payload)
      with (("data:" +:+ mime) +:+ (String ";" "base64,") +:+ payload).
    apply split_two; [|exact Hp]. simpl. exact Hm1. }
  assert (H2 : split ":" ("data:" +:+ mime) = ["data"; mime]).
  { change ("data:" +:+ mime) with ("data" +:+ (String ":" EmptyString) +:+ mime).
    apply split_two; [reflexivity|exact Hm2]. }
  rewrite H1. simpl nth. simpl nth_error. rewrite H2. reflexivity.
Qed.

Lemma edit_request_round_trip_witness :
  editMealImage (answering no_candidates) "data:image/png;base64,AAAA" "Add herbs"
  = match generateContent (answering no_candidates)
            {| model := "gemini-2.5-flash-image";
               contents := EditPrompt (Some "AAAA") (Some "image/png") "Add herbs" |} with
    | Throw e => Throw e
    | Return response =>
        match find_inline_part response with
        | Throw e => Throw e
        | Return part =>
            match inline_of part with
            | Some blob => Return (data_url blob)
            | None => Return "data:image/png;base64,AAAA"
            end
        end
    end.
Proof.
  apply (edit_request_round_trip (answering no_candidates) "image/png" "AAAA"
           "Add herbs"); reflexivity.
Defined.

(** * The planner's state *)

Section Plans.
Import MealPlanner.

Lemma omap_update key url (slots : list (option Meal)) :
  omap id (map (update key url) slots) =
  map (fun m => if String.eqb (meal_name m) key then with_image url m else m)
      (omap id slots).
Proof.
  induction slots as [|slot slots IH]; [reflexivity|].
  destruct slot as [m|]; simpl.
  - destruct (String.eqb (meal_name m) key); simpl; f_equal; exact IH.
  - exact IH.
Qed.

Lemma meals_of_update_day key url d :
  meals_of (update_day key url d) =
  map (fun m => if String.eqb (meal_name m) key then with_image url m else m)
      (meals_of d).
Proof.
  unfold meals_of, update_day. cbn [breakfast lunch dinner snacks].
  destruct (snacks d) as [l|].
  - exact (omap_update key url ([breakfast d; lunch d; dinner d] ++ l)).
  - exact (omap_update key url [breakfast d; lunch d; dinner d]).
Qed.

(** X7.  Replacing the image of a meal name reaches every meal of that name
    in every day of the plan and nothing else: the days and their meals stay
    in place with their names, each meal of that name now carries the new
    locator, and every other meal is exactly as it was. *)
Theorem updateMealImageInState_propagates key url st :
  length (plans (updateMealImageInState key url st)) = length (plans st) /\
  forall i d, nth_error (plans st) i = Some d ->
    exists d', nth_error (plans (updateMealImageInState key url st)) i = Some d' /\
      day d' = day d /\
      map meal_name (meals_of d') = map meal_name (meals_of d) /\
      Forall (fun m => meal_name m = key -> imageUrl m = Some url) (meals_of d') /\
      (forall m, In m (meals_of d) -> meal_name m <> key -> In m (meals_of d')).
Proof.
  unfold updateMealImageInState. simpl plans. split; [apply length_map|].
  intros i d Hd. exists (update_day key url d).
  split; [apply map_nth_error, Hd|]. split; [reflexivity|].
  rewrite meals_of_update_day. split; [|split].
  - rewrite map_map. apply map_ext. intros m.
    destruct (String.eqb (meal_name m) key); reflexivity.
  - apply List.Forall_forall. intros m Hm. apply in_map_iff in Hm.
    destruct Hm as (m0 & <- & _).
    destruct (String.eqb (meal_name m0) key) eqn:E; [reflexivity|].
    intros Hk. apply String.eqb_neq in E. contradiction.
  - intros m Hm Hne. apply in_map_iff. exists m. split; [|exact Hm].
    apply String.eqb_neq in Hne. rewrite Hne. reflexivity.
Qed.

Lemma updateMealImageInState_propagates_witness :
  exists d',
    nth_error (plans (updateMealImageInState "Grilled Salmon"
                        "data:image/png;base64,CCCC" planning)) 0 = Some d' /\
    map meal_name (meals_of d') = ["Overnight Oats"; "Grilled Salmon"; "Grilled Salmon"] /\
    Forall (fun m => meal_name m = "Grilled Salmon" ->
                     imageUrl m = Some "data:image/png;base64,CCCC") (meals_of d') /\
    In oats (meals_of d').
Proof.
  destruct (proj2 (updateMealImageInState_propagates "Grilled Salmon"
                     "data:image/png;base64,CCCC" planning) 0 _ eq_refl)
    as (d' & Hd' & _ & Hnames & Hall & Hrest).
  exists d'. split; [exact Hd'|]. split; [exact Hnames|]. split; [exact Hall|].
  apply Hrest; [simpl; auto|discriminate].
Defined.

Lemma update_update key url url' slot :
  update key url' (update key url slot) = update key url' slot.
Proof.
  destruct slot as [m|]; [|reflexivity]. simpl.
  destruct (String.eqb (meal_name m) key) eqn:E; simpl; rewrite E; reflexivity.
Qed.

Lemma update_day_update_day key url url' d :
  update_day key url' (update_day key url d) = update_day key url' d.
Proof.
  destruct d as [dy b l dn sn sp]. unfold update_day. simpl.
  rewrite !update_update. f_equal. f_equal.
  destruct sn as [slots|]; [|reflexivity].
  rewrite map_map. apply map_ext. intros slot. apply update_update.
Qed.

Lemma update_swap key key' url url' slot :
  key <> key' ->
  update key url (update key' url' slot) = update key' url' (update key url slot).
Proof.
  intros Hne. destruct slot as [m|]; [|reflexivity]. simpl.
  destruct (String.eqb (meal_name m) key') eqn:E';
    destruct (String.eqb (meal_name m) key) eqn:E; simpl; rewrite ?E, ?E';
    try reflexivity.
  apply String.eqb_eq in E, E'. congruence.
Qed.

Lemma update_day_swap key key' url url' d :
  key <> key' ->
  update_day key url (update_day key' url' d)
  = update_day key' url' (update_day key url d).
Proof.
  intros Hne. destruct d as [dy b l dn sn sp]. unfold update_day. simpl.
  rewrite !(update_swap key key' url url' _ Hne). f_equal. f_equal.
  destruct sn as [slots|]; [|reflexivity].
  rewrite !map_map. apply map_ext. intros slot. apply update_swap, Hne.
Qed.

(** X8.  Replacements compose as writes do: of two replacements for the
    same name only the later one shows, in the cache and in the plan, and
    replacements for different names can be made in either order. *)
Theorem updateMealImageInState_composes key key' url url' st :
  updateMealImageInState key url' (updateMealImageInState key url st)
    = updateMealImageInState key url' st /\
  (key <> key' ->
   updateMealImageInState key url (updateMealImageInState key' url' st)
     = updateMealImageInState key' url' (updateMealImageInState key url st)).
Proof.
  unfold updateMealImageInState. simpl. split.
  - f_equal.
    + apply assign_assign.
    + rewrite map_map. apply map_ext. intros d. apply update_day_update_day.
  - intros Hne. f_equal.
    + apply assign_swap, Hne.
    + rewrite !map_map. apply map_ext. intros d. apply update_day_swap, Hne.
Qed.

Lemma updateMealImageInState_composes_witness :
  updateMealImageInState "Grilled Salmon" "data:image/png;base64,AAAA"
    (updateMealImageInState "Overnight Oats" "data:image/png;base64,BBBB" planning)
  = updateMealImageInState "Overnight Oats" "data:image/png;base64,BBBB"
      (updateMealImageInState "Grilled Salmon" "data:image/png;base64,AAAA" planning).
Proof.
  apply (proj2 (updateMealImageInState_composes "Grilled Salmon" "Overnight Oats"
                  "data:image/png;base64,AAAA" "data:image/png;base64,BBBB" planning)).
  discriminate.
Defined.

End Plans.

Section Edit.
Import MealPlanner.

(** X9.  An edit that cannot start or that fails changes nothing that is
    shown: without a selected meal carrying an image, or with a blank
    prompt, the state stays as it is whatever the backend; when
    [editMealImage] raises, the cache, the plan and the selected meal are
    kept and the error goes to the console. *)
Theorem handleEditImage_without_effect ai promptOverride st :
  (selectedMeal st = None -> handleEditImage ai promptOverride st = st) /\
  (forall meal, selectedMeal st = Some meal -> truthy_str (imageUrl meal) = false ->
     handleEditImage ai promptOverride st = st) /\
  (blank (or_default promptOverride (editPrompt st)) = true ->
     handleEditImage ai promptOverride st = st) /\
  (forall meal current e,
     selectedMeal st = Some meal -> imageUrl meal = Some current ->
     current <> EmptyString ->
     blank (or_default promptOverride (editPrompt st)) = false ->
     editMealImage ai current (or_default promptOverride (editPrompt st)) = Throw e ->
     let st' := handleEditImage ai promptOverride st in
     SESSION_IMAGE_CACHE st' = SESSION_IMAGE_CACHE st /\
     plans st' = plans st /\ selectedMeal st' = selectedMeal st /\
     editPrompt st' = editPrompt st /\ isEditingImage st' = false /\
     console st' = console st ++ [e]).
Proof.
  unfold handleEditImage. split; [|split; [|split]].
  - intros ->. reflexivity.
  - intros meal -> Hf. destruct (imageUrl meal) as [current|]; [|reflexivity].
    simpl in Hf. apply negb_false_iff in Hf. rewrite Hf. reflexivity.
  - intros Hb. destruct (selectedMeal st) as [meal|]; [|reflexivity].
    destruct (imageUrl meal) as [current|]; [|reflexivity].
    rewrite Hb, orb_true_r. reflexivity.
  - intros meal current e -> -> Hne Hb He. apply String.eqb_neq in Hne.
    rewrite Hne, Hb, He. simpl. repeat split.
Qed.

Lemma handleEditImage_without_effect_witness :
  let st' := handleEditImage (answering no_candidates) None editing in
  SESSION_IMAGE_CACHE st' = SESSION_IMAGE_CACHE editing /\
  plans st' = plans editing /\ selectedMeal st' = selectedMeal editing /\
  editPrompt st' = editPrompt editing /\ isEditingImage st' = false /\
  console st' = console editing ++ [TypeError].
Proof.
  apply (proj2 (proj2 (proj2 (handleEditImage_without_effect
                                (answering no_candidates) None editing)))
               salmon "data:image/png;base64,AAAA" TypeError).
  - reflexivity.
  - reflexivity.
  - discriminate.
  - reflexivity.
  - reflexivity.
Defined.

(** A prompt made of no-break spaces is blank to [trim], as one made of
    spaces is: nothing is sent and nothing changes. *)
Example handleEditImage_no_break_spaces ai st :
  editPrompt st = String (ascii_of_nat 194) (String (ascii_of_nat 160)
                    (String (ascii_of_nat 194) (String (ascii_of_nat 160) EmptyString))) ->
  handleEditImage ai None st = st.
Proof.
  intros Hp. unfold handleEditImage.
  destruct (selectedMeal st) as [meal|]; [|reflexivity].
  destruct (imageUrl meal) as [current|]; [|reflexivity].
  simpl. rewrite Hp. simpl. rewrite orb_true_r. reflexivity.
Qed.



(** X12.  A look-up in the image cache writes at most the entry of its own
    key, and only when that entry was absent or empty: every other entry,
    and every entry that already holds a locator, is read back unchanged. *)
Theorem lookup_preserves_entries ai key st other url :
  SESSION_IMAGE_CACHE st !! other = Some url ->
  other <> key \/ url <> EmptyString ->
  SESSION_IMAGE_CACHE (snd (lookup ai key st)) !! other = Some url.
Proof.
  intros Hsome Hcase. rewrite lookup_cache.
  destruct (truthy_reading (read (SESSION_IMAGE_CACHE st) key)) eqn:Hr;
    [exact Hsome|].
  destruct (generateMealImage ai key) as [u|e]; [|exact Hsome].
  destruct (String.eqb other key) eqn:E.
  - apply String.eqb_eq in E. subst other.
    destruct Hcase as [Hne|Hne]; [contradiction|].
    rewrite (read_own _ _ _ Hsome) in Hr. simpl in Hr.
    apply String.eqb_neq in Hne. rewrite Hne in Hr. discriminate.
  - apply String.eqb_neq in E. rewrite assign_lookup_ne by exact E. exact Hsome.
Qed.

Lemma lookup_preserves_entries_witness :
  SESSION_IMAGE_CACHE
    (snd (lookup (answering (candidate_with [png "NEW"] [] None)) "Overnight Oats"
            editing)) !! "Grilled Salmon"
  = Some "data:image/png;base64,AAAA".
Proof.
  apply (lookup_preserves_entries (answering (candidate_with [png "NEW"] [] None))
           "Overnight Oats" editing "Grilled Salmon" "data:image/png;base64,AAAA").
  - reflexivity.
  - left. discriminate.
Defined.

End Edit.

Section Demo.
Import WorkoutPlanner.

(** X11.  A demonstration whose generation raises is not cached.  For an
    exercise that reads as a miss (no locator stored under its name, which
    is not one that every object inherits), the cache and the video shown
    stay as they were, the error message is displayed, the error is logged,
    and opening the same demonstration again calls [getExerciseVideo]
    again. *)
Theorem failed_demo_is_not_cached
    ai ai' API_KEY fuel fuel' exercise lab e progress url progress' :
  truthy_reading (read (VIDEO_CACHE lab) exercise) = false ->
  getExerciseVideo ai API_KEY exercise fuel = Some (Throw e, progress) ->
  getExerciseVideo ai' API_KEY exercise fuel' = Some (Return url, progress') ->
  exists first second,
    handleOpenDemo ai API_KEY fuel exercise lab = Some first /\
    VIDEO_CACHE first = VIDEO_CACHE lab /\
    currentVideoUrl first = currentVideoUrl lab /\
    videoLoading first = false /\
    videoProgressMsg first = "Network Protocol Error. Please Retry." /\
    console first = console lab ++ [e] /\
    handleOpenDemo ai' API_KEY fuel' exercise first = Some second /\
    requested second = requested lab ++ [exercise; exercise] /\
    currentVideoUrl second = Str url /\
    VIDEO_CACHE second !! exercise = Some url.
Proof.
  intros Hmiss Hfail Hok. unfold handleOpenDemo at 1. rewrite Hmiss, Hfail.
  eexists. eexists. split; [reflexivity|]. simpl.
  repeat (split; [reflexivity|]).
  unfold handleOpenDemo. simpl. rewrite Hmiss, Hok. split; [reflexivity|].
  simpl. rewrite <- app_assoc. split; [reflexivity|]. split; [reflexivity|].
  apply assign_falsy, Hmiss.
Qed.

Lemma failed_demo_is_not_cached_witness :
  exists first second,
    handleOpenDemo (failing_at 2) (Some "K") 5 "Squat" fresh = Some first /\
    VIDEO_CACHE first = VIDEO_CACHE fresh /\
    currentVideoUrl first = currentVideoUrl fresh /\
    videoLoading first = false /\
    videoProgressMsg first = "Network Protocol Error. Please Retry." /\
    console first = console fresh ++ [BackendError "quota"] /\
    handleOpenDemo (done_after 1 (Some (one_video "https://videos.example/squat")))
      (Some "K") 5 "Squat" first = Some second /\
    requested second = requested fresh ++ ["Squat"; "Squat"] /\
    currentVideoUrl second = Str "https://videos.example/squat&key=K" /\
    VIDEO_CACHE second !! "Squat" = Some "https://videos.example/squat&key=K".
Proof.
  apply (failed_demo_is_not_cached (failing_at 2)
           (done_after 1 (Some (one_video "https://videos.example/squat")))
           (Some "K") 5 5
           "Squat" fresh (BackendError "quota")
           ["Initializing Bio-Visual Simulation...";
            "Accessing Neural Compute Pipeline...";
            "Synthesizing Movement Dynamics..."]
           "https://videos.example/squat&key=K"
           ["Initializing Bio-Visual Simulation...";
            "Accessing Neural Compute Pipeline...";
            "Simulation Complete. Finalizing Stream."]).
  - reflexivity.
  - reflexivity.
  - reflexivity.
Defined.

(** An exercise named as something every object inherits is found in the
    empty cache: nothing is generated for it. *)
Example inherited_name_opens_without_generation :
  exists lab,
    handleOpenDemo (failing_at 2) (Some "K") 5 "constructor" fresh = Some lab /\
    requested lab = [] /\ console lab = [] /\ currentVideoUrl lab = Builtin.
Proof. eexists. vm_compute. repeat split. Qed.

End Demo.

(** * Check marks, filters and logs *)

Section Marks.

Lemma checked_insert key other b (prev : gmap string bool) :
  checked (<[key := b]> prev) other =
  if String.eqb other key then b else checked prev other.
Proof.
  unfold checked, read. destruct (String.eqb other key) eqn:E.
  - apply String.eqb_eq in E. subst. rewrite lookup_insert_eq. reflexivity.
  - apply String.eqb_neq in E. rewrite lookup_insert_ne by congruence. reflexivity.
Qed.

(** X13.  Toggling a check mark flips how its key reads and leaves every
    other key alone; toggling twice gives back the reading of every key,
    the key being then stored with the reading it had.  A key without a
    mark of its own reads as unchecked and is stored as [true] by the first
    toggle, unless it names something every object inherits: it then reads
    as checked and is stored as [false]. *)
Theorem toggle_flips_one_mark key prev :
  checked (toggleConsumed key prev) key = negb (checked prev key) /\
  (forall other, other <> key ->
     checked (toggleConsumed key prev) other = checked prev other) /\
  (forall any, checked (toggleConsumed key (toggleConsumed key prev)) any
               = checked prev any) /\
  toggleConsumed key (toggleConsumed key prev) !! key = Some (checked prev key) /\
  (prev !! key = None ->
   checked prev key = inherited key /\
   toggleConsumed key prev !! key = Some (negb (inherited key))) /\
  toggleShopping key prev = toggleConsumed key prev /\
  toggleComplete key prev = toggleConsumed key prev.
Proof.
  unfold toggleConsumed, toggleShopping, toggleComplete.
  split; [|split; [|split; [|split; [|split; [|split; reflexivity]]]]].
  - rewrite checked_insert, String.eqb_refl. reflexivity.
  - intros other Hne. rewrite checked_insert.
    apply String.eqb_neq in Hne. rewrite Hne. reflexivity.
  - intros any. rewrite !checked_insert.
    destruct (String.eqb any key) eqn:E.
    + rewrite String.eqb_refl, negb_involutive.
      apply String.eqb_eq in E. subst. reflexivity.
    + reflexivity.
  - rewrite lookup_insert_eq, checked_insert, String.eqb_refl, negb_involutive.
    reflexivity.
  - intros Hnone.
    assert (Hc : checked prev key = inherited key).
    { unfold checked, read. rewrite Hnone. destruct (inherited key); reflexivity. }
    split; [exact Hc|]. rewrite lookup_insert_eq, Hc. reflexivity.
Qed.

Lemma toggle_flips_one_mark_witness :
  (checked ∅ "constructor" = inherited "constructor" /\
   toggleConsumed "constructor" ∅ !! "constructor"
     = Some (negb (inherited "constructor"))) /\
  (checked ∅ "Grilled Salmon" = inherited "Grilled Salmon" /\
   toggleConsumed "Grilled Salmon" ∅ !! "Grilled Salmon"
     = Some (negb (inherited "Grilled Salmon"))).
Proof.
  split.
  - apply (proj1 (proj2 (proj2 (proj2 (proj2 (toggle_flips_one_mark "constructor" ∅)))))).
    reflexivity.
  - apply (proj1 (proj2 (proj2 (proj2 (proj2 (toggle_flips_one_mark "Grilled Salmon" ∅)))))).
    reflexivity.
Defined.

(** The two cases, computed. *)
Example toggle_of_missing_marks :
  toggleConsumed "Grilled Salmon" ∅ !! "Grilled Salmon" = Some true /\
  toggleConsumed "constructor" ∅ !! "constructor" = Some false.
Proof. split; reflexivity. Qed.

End Marks.

Section Categories.
Import Shopping.

Lemma set_from_spec l : forall set,
  List.NoDup set ->
  List.NoDup (set_from l set) /\
  (forall x, In x (set_from l set) <-> In x set \/ In x l) /\
  exists added, set_from l set = set ++ added.
Proof.
  induction l as [|y l IH]; intros set Hnd; simpl.
  - split; [exact Hnd|]. split; [intros x; tauto|].
    exists []. rewrite app_nil_r. reflexivity.
  - destruct (existsb (String.eqb y) set) eqn:E.
    + destruct (IH set Hnd) as (H1 & H2 & H3). split; [exact H1|].
      split; [|exact H3].
      intros x. rewrite H2. apply existsb_exists in E.
      destruct E as (z & Hz & Hyz). apply String.eqb_eq in Hyz. subst z.
      split; [tauto|]. intros [H|[<-|H]]; tauto.
    + assert (Hy : ~ In y set).
      { intros Hin. apply Bool.not_true_iff_false in E. apply E.
        apply existsb_exists. exists y. split; [exact Hin|apply String.eqb_refl]. }
      assert (Hnd' : List.NoDup (set ++ [y])).
      { apply List.NoDup_app; [exact Hnd| |].
        - constructor; [intros []|constructor].
        - intros x Hx [<-|[]]. contradiction. }
      destruct (IH (set ++ [y]) Hnd') as (H1 & H2 & added & H3).
      split; [exact H1|]. split.
      * intros x. rewrite H2, in_app_iff. simpl. tauto.
      * exists (y :: added). rewrite H3, <- app_assoc. reflexivity.
Qed.

(** X14.  The shopping categories list each category of the shopping list
    once, an item without category counting as [Other], and start with the
    category of the first item; without a prep strategy or without a
    shopping list there is none. *)
Theorem shoppingCategories_distinct prepStrategy :
  List.NoDup (shoppingCategories prepStrategy) /\
  (forall p items, prepStrategy = Some p -> shoppingList p = Some items ->
     (forall c, In c (shoppingCategories prepStrategy) <->
        exists i, In i items /\ or_default (category i) "Other" = c) /\
     (forall i rest, items = i :: rest ->
        exists others,
          shoppingCategories prepStrategy = or_default (category i) "Other" :: others)) /\
  (prepStrategy = None -> shoppingCategories prepStrategy = []) /\
  (forall p, prepStrategy = Some p -> shoppingList p = None ->
     shoppingCategories prepStrategy = []).
Proof.
  unfold shoppingCategories. split; [|split; [|split]].
  - apply set_from_spec. constructor.
  - intros p items -> ->. split.
    + intros c.
      destruct (set_from_spec (map (fun i => or_default (category i) "Other") items)
                  [] (List.NoDup_nil _)) as (_ & H & _).
      rewrite H, in_map_iff. simpl. split.
      * intros [[]|(i & Hi & Hin)]. exists i. tauto.
      * intros (i & Hin & Hi). right. exists i. tauto.
    + intros i rest ->. simpl.
      destruct (set_from_spec (map (fun i => or_default (category i) "Other") rest)
                  [or_default (category i) "Other"]) as (_ & _ & added & H).
      { repeat constructor. intros []. }
      exists added. exact H.
  - intros ->. reflexivity.
  - intros p -> ->. reflexivity.
Qed.

Lemma shoppingCategories_distinct_witness :
  let items := [{| item := "Salmon"; amount := "600 g"; category := Some "Protein" |};
                {| item := "Salt"; amount := "1"; category := None |};
                {| item := "Eggs"; amount := "12"; category := Some "Protein" |};
                {| item := "Foil"; amount := "1"; category := Some EmptyString |}] in
  let p := {| batchPrepTasks := []; storageTips := []; shoppingList := Some items |} in
  shoppingCategories (Some p) = ["Protein"; "Other"] /\
  (forall c, In c (shoppingCategories (Some p)) <->
     exists i, In i items /\ or_default (category i) "Other" = c).
Proof.
  intros items p. split; [reflexivity|].
  exact (proj1 (proj1 (proj2 (shoppingCategories_distinct (Some p)))
                  p items eq_refl eq_refl)).
Defined.

End Categories.

Section Amenities.
Import GymFinder.

Lemma existsb_eqb_In a l : existsb (String.eqb a) l = true <-> In a l.
Proof.
  rewrite existsb_exists. split.
  - intros (x & Hx & E). apply String.eqb_eq in E. subst. exact Hx.
  - intros H. exists a. split; [exact H|apply String.eqb_refl].
Qed.

Lemma filter_absent a l :
  ~ In a l -> List.filter (fun x => negb (String.eqb x a)) l = l.
Proof.
  induction l as [|x l IH]; simpl; intros H; [reflexivity|].
  destruct (String.eqb x a) eqn:E; simpl.
  - apply String.eqb_eq in E. subst. destruct H. left. reflexivity.
  - rewrite IH; [reflexivity|]. intros Hin. apply H. right. exact Hin.
Qed.

(** X15.  Toggling an amenity filter switches that amenity and no other:
    it is selected afterwards exactly when it was not before, every other
    amenity stays as it was, a selection without repeats stays without, and
    switching an amenity on and off again gives back the selection. *)
Theorem toggleAmenity_switches_one amenity prev :
  (In amenity (toggleAmenity amenity prev) <-> ~ In amenity prev) /\
  (forall other, other <> amenity ->
     (In other (toggleAmenity amenity prev) <-> In other prev)) /\
  (List.NoDup prev -> List.NoDup (toggleAmenity amenity prev)) /\
  (~ In amenity prev ->
   toggleAmenity amenity (toggleAmenity amenity prev) = prev).
Proof.
  unfold toggleAmenity.
  destruct (existsb (String.eqb amenity) prev) eqn:E.
  - apply existsb_eqb_In in E. split; [|split; [|split]].
    + rewrite filter_In, String.eqb_refl. simpl. split; [intros [_ H]|tauto].
      discriminate.
    + intros other Hne. rewrite filter_In. apply String.eqb_neq in Hne.
      rewrite Hne. simpl. tauto.
    + apply List.NoDup_filter.
    + intros H. contradiction.
  - assert (Hn : ~ In amenity prev).
    { intros H. apply existsb_eqb_In in H. congruence. }
    split; [|split; [|split]].
    + rewrite in_app_iff. simpl. tauto.
    + intros other Hne. rewrite in_app_iff. simpl. split; [|tauto].
      intros [H|[H|[]]]; [exact H|]. subst. destruct (Hne eq_refl).
    + intros Hnd. apply List.NoDup_app; [exact Hnd| |].
      * constructor; [intros []|constructor].
      * intros x Hx [<-|[]]. contradiction.
    + intros _.
      assert (Hin : existsb (String.eqb amenity) (prev ++ [amenity]) = true).
      { apply existsb_eqb_In, in_app_iff. right. left. reflexivity. }
      rewrite Hin, List.filter_app, (filter_absent _ _ Hn). simpl.
      rewrite String.eqb_refl. simpl. apply app_nil_r.
Qed.

Lemma toggleAmenity_switches_one_witness :
  toggleAmenity "Sauna" (toggleAmenity "Sauna" ["Pool"; "Yoga"]) = ["Pool"; "Yoga"] /\
  List.NoDup (toggleAmenity "Pool" ["Pool"; "Yoga"]).
Proof.
  split.
  - apply (proj2 (proj2 (proj2 (toggleAmenity_switches_one "Sauna" ["Pool"; "Yoga"])))).
    intros [H|[H|[]]]; discriminate.
  - apply (proj1 (proj2 (proj2 (toggleAmenity_switches_one "Pool" ["Pool"; "Yoga"])))).
    repeat constructor; simpl; intuition discriminate.
Defined.

End Amenities.

Section Logs.
Import App.

Lemma last_app_one {A} (l : list A) (x d : A) : List.last (l ++ [x]) d = x.
Proof.
  induction l as [|y l IH]; [reflexivity|].
  simpl. destruct (l ++ [x]) eqn:E; [destruct l; discriminate|exact IH].
Qed.

Lemma latestLog_app_one l x : latestLog (l ++ [x]) = Some x.
Proof.
  unfold latestLog. destruct l as [|y l]; [reflexivity|].
  simpl. destruct l as [|z l]; [reflexivity|].
  simpl app. f_equal.
  change (List.last ((z :: l) ++ [x]) y = x). apply last_app_one.
Qed.

(** X16.  Adding a log puts it last, so that it is the one the dashboard
    shows; before it come the earlier logs that are not dated [Today], all
    of them and in the order they had; the new weight is copied into the
    profile without touching its other fields, and the dashboard tab is
    selected. *)
Theorem addLog_appends newLog st :
  latestLog (logs (addLog newLog st)) = Some newLog /\
  (exists kept,
     logs (addLog newLog st) = kept ++ [newLog] /\
     remains (fun l => negb (String.eqb (date l) "Today")) (logs st) kept /\
     (forall l, In l kept <-> In l (logs st) /\ date l <> "Today") /\
     (Forall (fun l => date l <> "Today") (logs st) -> kept = logs st)) /\
  length (logs (addLog newLog st)) <= S (length (logs st)) /\
  weight (profile (addLog newLog st)) = log_weight newLog /\
  with_weight (weight (profile st)) (profile (addLog newLog st))
    = with_weight (weight (profile st)) (profile st) /\
  activeTab (addLog newLog st) = "dashboard".
Proof.
  unfold addLog. simpl. split; [apply latestLog_app_one|]. split; [|split].
  - eexists. split; [reflexivity|]. split; [apply filter_remains|]. split.
    + intros l. rewrite filter_In, negb_true_iff, String.eqb_neq. reflexivity.
    + intros Hall. induction Hall as [|l ls Hl _ IH]; [reflexivity|].
      simpl. apply String.eqb_neq in Hl. rewrite Hl. simpl. f_equal. exact IH.
  - rewrite length_app. simpl.
    pose proof (filter_length_le (fun l => negb (String.eqb (date l) "Today")) (logs st)).
    lia.
  - repeat split.
Qed.

Lemma addLog_appends_witness :
  let today := {| date := "Today"; log_weight := "85.0"; caloriesConsumed := "2950";
                  caloriesBurned := "650"; waterIntake := "3100";
                  log_protein := "195"; log_carbs := "330"; log_fats := "85" |} in
  let earlier := {| date := "Oct 25"; log_weight := "85.1"; caloriesConsumed := "2850";
                    caloriesBurned := "500"; waterIntake := "2900";
                    log_protein := "180"; log_carbs := "320"; log_fats := "80" |} in
  let before := {| date := "Oct 24"; log_weight := "85.4"; caloriesConsumed := "2800";
                   caloriesBurned := "450"; waterIntake := "2700";
                   log_protein := "175"; log_carbs := "310"; log_fats := "82" |} in
  let new := {| date := "Oct 26"; log_weight := "84.8"; caloriesConsumed := "2700";
                caloriesBurned := "400"; waterIntake := "3000";
                log_protein := "190"; log_carbs := "300"; log_fats := "70" |} in
  let st := {| logs := [before; today; earlier]; profile := someone;
               activeTab := "tracker" |} in
  logs (addLog new st) = [before; earlier; new] /\
  latestLog (logs (addLog new st)) = Some new.
Proof.
  intros today earlier before new st. split; [reflexivity|].
  exact (proj1 (addLog_appends new st)).
Defined.

End Logs.

Section Steps.
Import Loader.

Lemma steps_of_early_progress m : m <= 14 ->
  let progress := ["Initializing Bio-Visual Simulation...";
                   "Accessing Neural Compute Pipeline..."]
                  ++ narration 0 m ++ ["Simulation Complete. Finalizing Stream."] in
  StronglySorted le (map getCurrentStep (removelast progress)) /\
  getCurrentStep (List.last progress EmptyString) = 0.
Proof.
  intros Hm.
  assert (Hcases : In m (seq 0 15)) by (apply in_seq; lia).
  simpl in Hcases.
  repeat (destruct Hcases as [<-|Hcases];
          [split; [vm_compute; repeat (constructor; try lia)|reflexivity]|]).
  destruct Hcases.
Qed.

(** X17.  Along a run that completes, the step the loader lights for each
    message never goes back until the last one: the completion message
    contains the word [Simulation] and is shown as step 0, not as the final
    step. *)
Theorem loader_steps_along_a_run ai API_KEY exerciseName n final fuel :
  polled ai exerciseName n = Some final ->
  is_done final = true ->
  n <= fuel ->
  exists url progress,
    getExerciseVideo ai API_KEY exerciseName fuel = Some (Return url, progress) /\
    StronglySorted le (map getCurrentStep (removelast progress)) /\
    getCurrentStep (List.last progress EmptyString) = 0.
Proof.
  intros Hp Hd Hf. eexists. eexists.
  split; [exact (getExerciseVideo_completes _ API_KEY _ _ _ _ Hp Hd Hf)|].
  destruct (le_lt_dec 14 n) as [Hn|Hn].
  - rewrite (narration_saturates n Hn). apply steps_of_early_progress. lia.
  - apply steps_of_early_progress. lia.
Qed.

Lemma loader_steps_along_a_run_witness :
  exists url progress,
    getExerciseVideo (done_after 20 None) (Some "K") "Lunge" 20
      = Some (Return url, progress) /\
    StronglySorted le (map getCurrentStep (removelast progress)) /\
    getCurrentStep (List.last progress EmptyString) = 0.
Proof.
  apply (loader_steps_along_a_run (done_after 20 None) (Some "K") "Lunge" 20
           {| done := Some true; response := None |} 20).
  - reflexivity.
  - reflexivity.
  - lia.
Defined.

End Steps.

(** * The chat assistant *)

Section Chat.
Import ChatAssistant.

Lemma set_last_text_app fullText l m :
  set_last_text fullText (l ++ [m]) = l ++ [{| role := role m; text := fullText |}].
Proof.
  induction l as [|x l IH]; [reflexivity|].
  simpl. rewrite IH. destruct (l ++ [m]) eqn:E; [destruct l; discriminate|].
  reflexivity.
Qed.

Lemma append_assoc a b c : (a +:+ b) +:+ c = a +:+ (b +:+ c).
Proof.
  induction a as [|x a IH]; [reflexivity|]. rewrite !append_cons, IH. reflexivity.
Qed.

Lemma receive_all cs : forall acc l r,
  snd (fold_left receive cs (acc, l ++ [{| role := r; text := acc |}]))
  = l ++ [{| role := r;
             text := acc +:+ fold_right String.append EmptyString (map template cs) |}].
Proof.
  induction cs as [|chunk cs IH]; intros acc l r; simpl.
  - rewrite append_empty_r. reflexivity.
  - unfold receive at 2. simpl. rewrite set_last_text_app. simpl.
    rewrite IH, append_assoc. reflexivity.
Qed.

(** X18.  Sending a message never loses history: the earlier messages stay
    in place and the user's text follows them.  The reply that comes after
    is the concatenation of the texts of all the chunks received (a chunk
    without text counting as [undefined]), followed by [Connection error.]
    if the stream broke, or is [Connection error.] alone if it never
    started.  A blank text, a missing session or a reply in progress leaves
    everything as it is. *)
Theorem handleSendMessage_appends chat text st :
  (chat = None \/ MealPlanner.blank text = true \/ isTyping st = true ->
   handleSendMessage chat text st = st) /\
  (forall send, chat = Some send ->
     MealPlanner.blank text = false -> isTyping st = false ->
     let st' := handleSendMessage chat text st in
     isTyping st' = false /\ inputValue st' = EmptyString /\
     (forall e, send text = Throw e ->
        messages st' = messages st
          ++ [{| role := user; text := text |};
              {| role := model; text := "Connection error." |}]) /\
     (forall result, send text = Return result ->
        let reply :=
          {| role := model;
             text := fold_right String.append EmptyString
                       (map template (chunks result)) |} in
        (failure result = None ->
           messages st' = messages st ++ [{| role := user; text := text |}; reply]) /\
        (forall e, failure result = Some e ->
           messages st' = messages st
             ++ [{| role := user; text := text |}; reply;
                 {| role := model; text := "Connection error." |}]))).
Proof.
  unfold handleSendMessage. split.
  - intros [->|[H|H]]; [reflexivity| |];
      (destruct chat; [|reflexivity]); rewrite H, ?orb_true_r; reflexivity.
  - intros send -> Hb Ht. rewrite Hb, Ht. simpl.
    destruct (send text) as [result|e0] eqn:Hs.
    + simpl. split; [reflexivity|]. split; [reflexivity|].
      split; [discriminate|].
      intros result' [= <-].
      pose proof (receive_all (chunks result) EmptyString
                    (messages st ++ [{| role := user; text := text |}]) model) as Hr.
      change (EmptyString +:+ ?x) with x in Hr.
      rewrite Hr. split.
      * intros ->. rewrite <- app_assoc. reflexivity.
      * intros e ->. rewrite <- !app_assoc. reflexivity.
    + simpl. split; [reflexivity|]. split; [reflexivity|]. split.
      * intros e _. rewrite <- app_assoc. reflexivity.
      * discriminate.
Qed.

(** A text made of no-break spaces is blank to [trim]: it is not sent. *)
Example handleSendMessage_no_break_spaces chat st :
  handleSendMessage chat (String (ascii_of_nat 194) (String (ascii_of_nat 160) EmptyString))
    st = st.
Proof.
  unfold handleSendMessage. destruct chat; reflexivity.
Qed.

Lemma handleSendMessage_appends_witness :
  let send := fun _ : string =>
    Return {| chunks := [Some "Eat "; None; Some " protein."];
              failure := Some (BackendError "reset") |} in
  let st := {| messages := [{| role := model; text := "Welcome to the Lab." |}];
               inputValue := "What now?"; isTyping := false |} in
  messages (handleSendMessage (Some send) "What now?" st)
  = [{| role := model; text := "Welcome to the Lab." |};
     {| role := user; text := "What now?" |};
     {| role := model; text := "Eat undefined protein." |};
     {| role := model; text := "Connection error." |}].
Proof.
  intros send st.
  exact (proj2 (proj2 (proj2 (proj2 (proj2 (handleSendMessage_appends (Some send)
                                              "What now?" st)
                                      send eq_refl eq_refl eq_refl)))
                        _ eq_refl)
               (BackendError "reset") eq_refl).
Defined.

End Chat.

(** * Fetching the plans *)

Section Fetching.

Variable number_truthy : string -> bool.

Lemma or_value_truthy a b :
  truthy number_truthy b = true -> truthy number_truthy (or_value number_truthy a b) = true.
Proof.
  intros Hb. unfold or_value. destruct (truthy number_truthy a) eqn:E; assumption.
Qed.

Lemma or_value_defined a b :
  b <> VUndefined -> or_value number_truthy a b <> VUndefined.
Proof.
  intros Hb. unfold or_value. destruct a; simpl; try exact Hb; try discriminate.
  - destruct b0; [discriminate|exact Hb].
  - destruct (number_truthy literal); [discriminate|exact Hb].
  - destruct (negb (String.eqb s EmptyString)); [discriminate|exact Hb].
Qed.

Lemma member_defined key data :
  data <> VNull -> data <> VUndefined -> member key data = Return (get_prop key data).
Proof. destruct data; intros H1 H2; try reflexivity; contradiction. Qed.

(** X19.  [fetchPlans] never raises and never leaves the loader on.  When
    [getMealPlan] raises, or its payload is [null], the plan, the prep
    strategy and the active day are kept and the error is logged;
    otherwise the stored plan is the payload's [days] or an empty list,
    never a falsy value, the prep strategy is the payload's or [null], and
    the first day becomes active.  An absent response text gives the empty
    plan with the empty prep strategy. *)
Theorem fetchPlans_settles ai profile lang st :
  let st' := fetchPlans number_truthy ai profile lang st in
  plans_loading st' = false /\
  (forall e, getMealPlan ai profile lang = Throw e ->
     plans st' = plans st /\ prepStrategy st' = prepStrategy st /\
     activeDayIdx st' = activeDayIdx st /\
     plans_console st' = plans_console st ++ [e]) /\
  (getMealPlan ai profile lang = Return VNull ->
     plans st' = plans st /\ prepStrategy st' = prepStrategy st /\
     activeDayIdx st' = activeDayIdx st /\
     plans_console st' = plans_console st ++ [TypeError]) /\
  (forall data, getMealPlan ai profile lang = Return data -> data <> VNull ->
     data <> VUndefined ->
     plans st' = or_value number_truthy (get_prop "days" data) (VArr []) /\
     truthy number_truthy (plans st') = true /\
     prepStrategy st' = or_value number_truthy (get_prop "prepStrategy" data) VNull /\
     prepStrategy st' <> VUndefined /\
     activeDayIdx st' = 0 /\
     plans_console st' = plans_console st) /\
  (getMealPlan ai profile lang = Return CANONICAL_EMPTY ->
     plans st' = VArr [] /\ prepStrategy st' = get_prop "prepStrategy" CANONICAL_EMPTY).
Proof.
  unfold fetchPlans. split; [|split; [|split; [|split]]].
  - destruct (bind _ _) as [[days strategy]|e]; reflexivity.
  - intros e ->. simpl. repeat split.
  - intros ->. simpl. repeat split.
  - intros data -> Hnull Hundef. unfold bind.
    rewrite (member_defined "days" _ Hnull Hundef),
      (member_defined "prepStrategy" _ Hnull Hundef).
    cbn [plans prepStrategy activeDayIdx plans_console].
    split; [reflexivity|]. split; [apply or_value_truthy; reflexivity|].
    split; [reflexivity|].
    split; [apply or_value_defined; discriminate|]. split; reflexivity.
  - intros ->. simpl. split; reflexivity.
Qed.

(** X20.  [fetchWorkouts] never raises and never leaves the loader on.
    When [getWorkoutPlan] raises, the workouts and the copy the application
    keeps are left as they were and the error is logged; otherwise both
    receive the same value, the payload or an empty list in place of a
    falsy one. *)
Theorem fetchWorkouts_settles ai profile lang notify st :
  let st' := fetchWorkouts number_truthy ai profile lang notify st in
  workouts_loading st' = false /\
  (forall e, getWorkoutPlan ai profile lang = Throw e ->
     workouts st' = workouts st /\ workoutPlan st' = workoutPlan st /\
     workouts_console st' = workouts_console st ++ [e]) /\
  (forall data, getWorkoutPlan ai profile lang = Return data ->
     workouts st' = or_value number_truthy data (VArr []) /\
     truthy number_truthy (workouts st') = true /\
     (notify = true -> workoutPlan st' = workouts st') /\
     (notify = false -> workoutPlan st' = workoutPlan st) /\
     workouts_console st' = workouts_console st) /\
  (getWorkoutPlan ai profile lang = Return VNull -> workouts st' = VArr []).
Proof.
  unfold fetchWorkouts. split; [|split; [|split]].
  - destruct (getWorkoutPlan ai profile lang); reflexivity.
  - intros e ->. simpl. repeat split.
  - intros data ->. simpl. split; [reflexivity|].
    split; [apply or_value_truthy; reflexivity|].
    split; [intros ->; reflexivity|]. split; [intros ->; reflexivity|reflexivity].
  - intros ->. reflexivity.
Qed.

End Fetching.

Lemma fetchPlans_settles_witness :
  let st := {| plans := VArr [VObj [("day", VStr "Day 1")]];
               prepStrategy := VNull; activeDayIdx := 2;
               plans_loading := true; plans_console := [] |} in
  let st' := fetchPlans (fun _ => true) (answering (text_only "not json")) someone en st in
  plans st' = plans st /\ prepStrategy st' = prepStrategy st /\
  activeDayIdx st' = activeDayIdx st /\
  plans_console st' = plans_console st ++ [SyntaxError].
Proof.
  intros st st'.
  exact (proj1 (proj2 (fetchPlans_settles (fun _ => true) (answering (text_only "not json"))
                         someone en st))
               SyntaxError eq_refl).
Defined.

Lemma fetchWorkouts_settles_witness :
  let st := {| workouts := VArr [VObj [("dayTitle", VStr "Push")]];
               workoutPlan := VArr []; workouts_loading := true;
               workouts_console := [] |} in
  let st' := fetchWorkouts (fun _ => true) (answering (text_only "null")) someone en
               true st in
  workouts st' = VArr [] /\ workoutPlan st' = workouts st'.
Proof.
  intros st st'.
  destruct (fetchWorkouts_settles (fun _ => true) (answering (text_only "null")) someone en true st)
    as (_ & _ & Hdata & Hnull).
  split; [exact (Hnull eq_refl)|].
  exact (proj1 (proj2 (proj2 (Hdata VNull eq_refl))) eq_refl).
Defined.

